(** * Ultrametric loss glue ([funlib.learn.tensorflow.losses.um_loss])

    A shallow embedding of [um_loss.py]: the numpy/TensorFlow wrappers
    around the Euclidean MST builder and the ultrametric loss core.

    Conventions of the embedding.
    - Floating-point numbers are idealised as real numbers ([R]); the
      precision of an array is kept as a [dtype] tag, so [astype] and the
      dtype checks of TensorFlow are visible while rounding is not.
    - A tensor is its dtype, its shape and its row-major data.
    - Python exceptions are the [Raise] results of an error monad; the
      logger and the registry of [py_func] nodes are threaded as explicit
      state ([world]).
    - The compiled core ([.impl.emst], [.impl.um_loss]) is not part of the
      Python module: the wrappers take it as a parameter. *)

From Stdlib Require Import String Reals List ZArith Lia Lra Bool Arith.
Import ListNotations.

Local Open Scope R_scope.

(** ** Exceptions, results and the state monad *)

Inductive exn : Type :=
| ValueError            (* numpy / Python ValueError *)
| TypeError             (* Python TypeError, TensorFlow dtype mismatch *)
| IndexError            (* Python / numpy IndexError *)
| ZeroDivisionError     (* np.arange with a zero step *)
| InvalidArgumentError  (* tf.errors.InvalidArgumentError *)
| CoreError.            (* anything raised by the compiled core *)

Inductive result (A : Type) : Type :=
| Ok (a : A)
| Raise (e : exn).

Arguments Ok {A} a.
Arguments Raise {A} e.

Inductive dtype : Type := float32 | float64 | int32 | int64 | bool_.

Definition dtype_eqb (a b : dtype) : bool :=
  match a, b with
  | float32, float32 | float64, float64 | int32, int32
  | int64, int64 | bool_, bool_ => true
  | _, _ => false
  end.

Inductive level : Type := INFO | WARNING.

Record log_record : Type := mkLog {
  log_level : level;
  log_format : string;
  log_args : list R
}.

Inductive pyfunc : Type := F_get_emst | F_get_um_loss | F_get_um_loss_gradient.

(** A [py_func] node of the graph, with the attributes the module sets. *)
Record node : Type := mkNode {
  node_func : pyfunc;
  node_Tout : list dtype;
  node_name : option string;
  node_stateful : bool;
  node_has_gradient : bool
}.

Record world : Type := mkWorld {
  logs : list log_record;
  graph : list node
}.

Definition M (A : Type) : Type := world -> result A * world.

Definition ret {A} (a : A) : M A := fun w => (Ok a, w).

Definition raise {A} (e : exn) : M A := fun w => (Raise e, w).

Definition bind {A B} (m : M A) (k : A -> M B) : M B :=
  fun w => match m w with
           | (Ok a, w') => k a w'
           | (Raise e, w') => (Raise e, w')
           end.

Definition lift {A} (r : result A) : M A := fun w => (r, w).

Notation "x <- m ;; k" := (bind m (fun x => k))
  (at level 61, m at next level, right associativity).
Notation "m ;;; k" := (bind m (fun _ => k))
  (at level 61, right associativity).

Definition rbind {A B} (r : result A) (k : A -> result B) : result B :=
  match r with
  | Ok a => k a
  | Raise e => Raise e
  end.

Notation "x <-- r ;; k" := (rbind r (fun x => k))
  (at level 61, r at next level, right associativity).

Definition logger_info (fmt : string) (args : list R) : M unit :=
  fun w => (Ok tt, mkWorld (logs w ++ [mkLog INFO fmt args]) (graph w)).

Definition logger_warn (fmt : string) (args : list R) : M unit :=
  fun w => (Ok tt, mkWorld (logs w ++ [mkLog WARNING fmt args]) (graph w)).

Definition add_node (n : node) : M unit :=
  fun w => (Ok tt, mkWorld (logs w) (graph w ++ [n])).

(** ** Tensors and numpy arrays *)

Record tensor (A : Type) : Type := mkTensor {
  t_dtype : dtype;
  t_shape : list nat;
  t_data : list A
}.

Arguments mkTensor {A} _ _ _.
Arguments t_dtype {A} _.
Arguments t_shape {A} _.
Arguments t_data {A} _.

Definition ndarray : Type := tensor R.

(** Values that cross the [py_func] boundary. *)
Inductive value : Type :=
| VF (t : tensor R)
| VI (t : tensor Z)
| VB (t : tensor bool).

Definition value_dtype (v : value) : dtype :=
  match v with
  | VF t => t_dtype t
  | VI t => t_dtype t
  | VB t => t_dtype t
  end.

Definition scalar (dt : dtype) (x : R) : ndarray := mkTensor dt [] [x].

(** [a.astype(dt)]: same shape, same (idealised) values, new precision. *)
Definition astype (dt : dtype) (a : ndarray) : ndarray :=
  mkTensor dt (t_shape a) (t_data a).

(** [np.float32(x)] for a Python or numpy scalar [x]. *)
Definition np_float32 (x : R) : ndarray := scalar float32 x.

Fixpoint list_min (x : R) (l : list R) : R :=
  match l with
  | [] => x
  | y :: l' => list_min (Rmin x y) l'
  end.

Fixpoint list_max (x : R) (l : list R) : R :=
  match l with
  | [] => x
  | y :: l' => list_max (Rmax x y) l'
  end.

(** [np.min] raises ValueError on a zero-size array. *)
Definition np_min (l : list R) : result R :=
  match l with
  | [] => Raise ValueError
  | x :: l' => Ok (list_min x l')
  end.

Definition np_max (l : list R) : result R :=
  match l with
  | [] => Raise ValueError
  | x :: l' => Ok (list_max x l')
  end.

(** [a[:, j]] on a two-dimensional array: IndexError unless the array has
    rank two and more than [j] columns. *)
Definition column {A} (d : A) (a : tensor A) (j : nat) : result (list A) :=
  match t_shape a with
  | [n; c] =>
      if (j <? c)%nat
      then Ok (map (fun i => nth (i * c + j) (t_data a) d) (seq 0 n))
      else Raise IndexError
  | _ => Raise IndexError
  end.

(** ** The TensorFlow operations the module uses *)

Definition prod (s : list nat) : nat := fold_right Nat.mul 1%nat s.

Definition sum (l : list R) : R := fold_right Rplus 0 l.

Fixpoint zip_with {A B C} (f : A -> B -> C) (l1 : list A) (l2 : list B)
  : list C :=
  match l1, l2 with
  | x :: l1', y :: l2' => f x y :: zip_with f l1' l2'
  | _, _ => []
  end.

(** Row [i] of row-major data with rows of [c] elements. *)
Definition row {A} (c : nat) (data : list A) (i : nat) : list A :=
  firstn c (skipn (i * c) data).

Definition shape_eqb (s1 s2 : list nat) : bool :=
  if list_eq_dec Nat.eq_dec s1 s2 then true else false.

(** An elementwise binary operation.  The operands must have one dtype.
    Broadcasting is modelled for the shapes that occur in this module: equal
    shapes, a scalar against anything, and a one-element vector against a
    vector. *)
Definition tf_binop (f : R -> R -> R) (a b : ndarray) : result ndarray :=
  if negb (dtype_eqb (t_dtype a) (t_dtype b)) then Raise TypeError
  else if shape_eqb (t_shape a) (t_shape b)
  then Ok (mkTensor (t_dtype a) (t_shape a)
             (zip_with f (t_data a) (t_data b)))
  else
    match t_shape a, t_data a, t_shape b, t_data b with
    | [], [x], _, _ =>
        Ok (mkTensor (t_dtype a) (t_shape b) (map (f x) (t_data b)))
    | _, _, [], [y] =>
        Ok (mkTensor (t_dtype a) (t_shape a) (map (fun x => f x y) (t_data a)))
    | [1%nat], [x], [_], _ =>
        Ok (mkTensor (t_dtype a) (t_shape b) (map (f x) (t_data b)))
    | [_], _, [1%nat], [y] =>
        Ok (mkTensor (t_dtype a) (t_shape a) (map (fun x => f x y) (t_data a)))
    | _, _, _, _ => Raise InvalidArgumentError
    end.

Definition tf_multiply : ndarray -> ndarray -> result ndarray := tf_binop Rmult.
Definition tf_subtract : ndarray -> ndarray -> result ndarray := tf_binop Rminus.
Definition tf_add : ndarray -> ndarray -> result ndarray := tf_binop Rplus.
Definition tf_divide : ndarray -> ndarray -> result ndarray := tf_binop Rdiv.

Definition tf_map (f : R -> R) (a : ndarray) : ndarray :=
  mkTensor (t_dtype a) (t_shape a) (map f (t_data a)).

Definition tf_square : ndarray -> ndarray := tf_map (fun x => x * x).
Definition tf_sqrt : ndarray -> ndarray := tf_map sqrt.

(** [tf.maximum(c, a)] for a Python float [c]. *)
Definition tf_maximum_const (c : R) : ndarray -> ndarray := tf_map (Rmax c).

(** [tf.reduce_sum(a)]: the sum of all elements, a scalar. *)
Definition tf_reduce_sum (a : ndarray) : ndarray :=
  scalar (t_dtype a) (sum (t_data a)).

(** [tf.reduce_sum(a, 1)] for a matrix [a]. *)
Definition tf_reduce_sum_1 (a : ndarray) : result ndarray :=
  match t_shape a with
  | [n; c] =>
      Ok (mkTensor (t_dtype a) [n]
            (map (fun i => sum (row c (t_data a) i)) (seq 0 n)))
  | _ => Raise InvalidArgumentError
  end.

(** Conversion of a float to int64: truncation towards zero. *)
Definition trunc (x : R) : Z :=
  if Rle_dec 0 x then Int_part x else (- Int_part (- x))%Z.

(** [tf.cast(a[:, j], tf.int64)]. *)
Definition index_column (a : ndarray) (j : nat) : result (list Z) :=
  col <-- column 0 a j ;; Ok (map trunc col).

(** [tf.gather(params, indices)] on a matrix: the rows at [indices]; an
    index outside [0, n) is an error. *)
Definition tf_gather (params : ndarray) (indices : list Z) : result ndarray :=
  match t_shape params with
  | [n; c] =>
      if forallb (fun i => (0 <=? i)%Z && (i <? Z.of_nat n)%Z) indices
      then Ok (mkTensor (t_dtype params) [length indices; c]
                 (flat_map (fun i => row c (t_data params) (Z.to_nat i))
                    indices))
      else Raise InvalidArgumentError
  | _ => Raise InvalidArgumentError
  end.

(** [tf.reshape(t, [n])]: the element count must be [n]. *)
Definition tf_reshape_flat {A} (t : tensor A) (n : nat) : result (tensor A) :=
  if (length (t_data t) =? n)%nat
  then Ok (mkTensor (t_dtype t) [n] (t_data t))
  else Raise InvalidArgumentError.

(** [tf.reshape(t, [n, -1])]: the second dimension is inferred, which needs
    [n] non-zero and a divisor of the element count. *)
Definition tf_reshape_rows {A} (t : tensor A) (n : nat) : result (tensor A) :=
  if (n =? 0)%nat then Raise InvalidArgumentError
  else if (length (t_data t) mod n =? 0)%nat
  then Ok (mkTensor (t_dtype t) [n; (length (t_data t) / n)%nat] (t_data t))
  else Raise InvalidArgumentError.

(** [tf.transpose(t, perm=[1, 2, 3, 0])] on a tensor of shape [(c, d, h, w)]:
    element [(z, y, x, ch)] of the result is element [(ch, z, y, x)] of [t]. *)
Definition tf_transpose_1230 (t : ndarray) : result ndarray :=
  match t_shape t with
  | [c; d; h; w] =>
      let D := (d * h * w)%nat in
      Ok (mkTensor (t_dtype t) [d; h; w; c]
            (flat_map (fun p => map (fun ch => nth (ch * D + p) (t_data t) 0)
                                  (seq 0 c))
               (seq 0 D)))
  | _ => Raise InvalidArgumentError
  end.

(** [tf.boolean_mask(t, mask)] for a one-dimensional [mask]: the slices of
    [t] along its first axis where [mask] holds; the first dimension of [t]
    must be the length of [mask]. *)
Definition tf_boolean_mask {A} (t : tensor A) (mask : tensor bool)
  : result (tensor A) :=
  match t_shape t, t_shape mask with
  | n :: rest, [m] =>
      if (n =? m)%nat
      then
        let keep := filter (fun i => nth i (t_data mask) false) (seq 0 n) in
        Ok (mkTensor (t_dtype t) (length keep :: rest)
              (flat_map (row (prod rest) (t_data t)) keep))
      else Raise ValueError
  | _, _ => Raise ValueError
  end.

(** [np.arange(0, n*step, step)]: [n] values [0, step, 2*step, ...]; a zero
    step is an error. *)
Definition np_arange (n : nat) (step : R) : result (list R) :=
  if Req_dec_T step 0 then Raise ZeroDivisionError
  else Ok (map (fun i => INR i * step) (seq 0 n)).

(** [tf.meshgrid(a0, a1, a2, indexing='ij')], each grid cast to float32. *)
Definition tf_meshgrid_ij (a0 a1 a2 : list R) : list R * list R * list R :=
  (flat_map (fun z => flat_map (fun y => map (fun x => z) a2) a1) a0,
   flat_map (fun z => flat_map (fun y => map (fun x => y) a2) a1) a0,
   flat_map (fun z => flat_map (fun y => map (fun x => x) a2) a1) a0).

(** ** The compiled core, and the wrappers around it *)

(** What [um_loss] of the core returns: a 6-tuple. *)
Record um_result : Type := mkUm {
  um_loss_value : R;
  um_gradient : ndarray;
  um_ratio_pos : ndarray;
  um_ratio_neg : ndarray;
  um_num_pairs_pos : R;
  um_num_pairs_neg : R
}.

Section Wrappers.

(** [from .impl import emst as euclidean_mst] *)
Variable euclidean_mst : ndarray -> result ndarray.

(** [from .impl import um_loss], called as [um_loss(mst, gt_seg, alpha)]. *)
Variable um_loss : ndarray -> tensor Z -> ndarray -> result um_result.

Definition get_emst (embedding : ndarray) : M ndarray :=
  emst <- lift (euclidean_mst (astype float64 embedding)) ;;
  col <- lift (column 0 emst 2) ;;
  d_min <- lift (np_min col) ;;
  d_max <- lift (np_max col) ;;
  logger_info "min/max ultrametric: %f/%f" [d_min; d_max] ;;;
  ret emst.

(** [tf.py_func(func, inp, Tout, name=name, stateful=stateful)]: a node is
    added to the graph; when it runs, [func] is applied to the inputs and
    each returned value must have the dtype declared in [Tout].

    The embedding runs a node where it is created.  TensorFlow builds the
    whole graph first and runs the nodes afterwards, so an error of graph
    construction (a dtype mismatch between tensors) comes before every
    error and every log record of a [py_func] node, wherever it stands in
    the program.  The two orders agree on every run whose graph can be
    built; statements on the order of failures are made for such runs. *)
Fixpoint check_dtypes (outs : list value) (Tout : list dtype) : bool :=
  match outs, Tout with
  | [], [] => true
  | v :: outs', dt :: Tout' =>
      dtype_eqb (value_dtype v) dt && check_dtypes outs' Tout'
  | _, _ => false
  end.

Definition run_node (n : node) (func : list value -> M (list value))
    (inp : list value) : M (list value) :=
  add_node n ;;;
  outs <- func inp ;;
  if check_dtypes outs (node_Tout n) then ret outs
  else raise InvalidArgumentError.

Definition py_func (f : pyfunc) (func : list value -> M (list value))
    (inp : list value) (Tout : list dtype) (name : option string)
    (stateful : bool) : M (list value) :=
  run_node (mkNode f Tout name stateful false) func inp.

(** Modelled from the spec: the helper [py_func_gradient] of module
    [.py_func_gradient], which is not part of this file.  It is [tf.py_func]
    whose node carries a registered backward pass ([gradient_op]); the forward
    value is that of [tf.py_func]. *)
Definition py_func_gradient (f : pyfunc) (func : list value -> M (list value))
    (inp : list value) (Tout : list dtype) (name : option string)
    (stateful : bool) : M (list value) :=
  run_node (mkNode f Tout name stateful true) func inp.

(** [xs[i]] on a Python list. *)
Definition item {A} (xs : list A) (i : nat) : result A :=
  match nth_error xs i with
  | Some x => Ok x
  | None => Raise IndexError
  end.

Definition as_float (v : value) : result ndarray :=
  match v with
  | VF t => Ok t
  | _ => Raise TypeError
  end.

(** The Python callable [get_emst] as seen by [py_func]. *)
Definition call_get_emst (args : list value) : M (list value) :=
  match args with
  | [VF embedding] => emst <- get_emst embedding ;; ret [VF emst]
  | _ => raise TypeError
  end.

Definition get_emst_op (embedding : ndarray) (name : option string)
  : M ndarray :=
  outs <- py_func F_get_emst call_get_emst [VF embedding] [float64] name false ;;
  out <- lift (item outs 0) ;;
  lift (as_float out).

(** [get_um_loss(mst, dist, gt_seg, alpha)]; [dist] is not used. *)
Definition get_um_loss (mst dist : ndarray) (gt_seg : tensor Z)
    (alpha : ndarray)
  : result (ndarray * ndarray * ndarray * ndarray * ndarray) :=
  r <-- um_loss mst gt_seg alpha ;;
  Ok (np_float32 (um_loss_value r),
      astype float32 (um_ratio_pos r),
      astype float32 (um_ratio_neg r),
      np_float32 (um_num_pairs_pos r),
      np_float32 (um_num_pairs_neg r)).

(** [get_um_loss_gradient(mst, dist, gt_seg, alpha)]; [dist] is not used. *)
Definition get_um_loss_gradient (mst dist : ndarray) (gt_seg : tensor Z)
    (alpha : ndarray) : result ndarray :=
  r <-- um_loss mst gt_seg alpha ;;
  Ok (astype float32 (um_gradient r)).

Definition call_get_um_loss (args : list value) : M (list value) :=
  match args with
  | [VF mst; VF dist; VI gt_seg; VF alpha] =>
      lift (r <-- get_um_loss mst dist gt_seg alpha ;;
            let '(loss, ratio_pos, ratio_neg, num_pairs_pos, num_pairs_neg) := r in
            Ok [VF loss; VF ratio_pos; VF ratio_neg;
                VF num_pairs_pos; VF num_pairs_neg])
  | _ => raise TypeError
  end.

Definition call_get_um_loss_gradient (args : list value) : M (list value) :=
  match args with
  | [VF mst; VF dist; VI gt_seg; VF alpha] =>
      lift (g <-- get_um_loss_gradient mst dist gt_seg alpha ;; Ok [VF g])
  | _ => raise TypeError
  end.


(** The registered backward pass.  [op.inputs] are the inputs of the forward
    node; the incoming gradients of the four outputs other than the loss are
    not used. *)
Record operation : Type := mkOp { op_inputs : list value }.

Definition get_um_loss_gradient_op (op : operation) (dloss : ndarray)
    (dratio_pos dratio_neg dnum_pairs_pos dnum_pairs_neg : option ndarray)
  : M (option ndarray * option ndarray * option ndarray * option ndarray) :=
  outs <- py_func F_get_um_loss_gradient call_get_um_loss_gradient
            (op_inputs op) [float32] None false ;;
  out <- lift (item outs 0) ;;
  gradient <- lift (as_float out) ;;
  scaled <- lift (tf_multiply gradient dloss) ;;
  ret (None, Some scaled, None, None).

(** [coordinate_scale] is a float or a tuple of floats. *)
Inductive scale_arg : Type :=
| ScaleFloat (s : R)
| ScaleTuple (s : list R).

(** [tuple(coordinate_scale)], or [(coordinate_scale,)*3] on TypeError. *)
Definition scale_tuple (coordinate_scale : scale_arg) : list R :=
  match coordinate_scale with
  | ScaleTuple s => s
  | ScaleFloat s => [s; s; s]
  end.

(** [tf.concat([a, b], 0)]: one dtype, equal shapes after the first axis. *)
Definition tf_concat_0 (a b : ndarray) : result ndarray :=
  if negb (dtype_eqb (t_dtype a) (t_dtype b)) then Raise TypeError
  else
    match t_shape a, t_shape b with
    | n :: ra, m :: rb =>
        if shape_eqb ra rb
        then Ok (mkTensor (t_dtype a) ((n + m)%nat :: ra)
                   (t_data a ++ t_data b))
        else Raise InvalidArgumentError
    | _, _ => Raise InvalidArgumentError
    end.

(** Step 1 of [ultrametric_loss_op]: the embedding augmented by the scaled
    [(z, y, x)] coordinates, and the warning about [alpha]. *)
Definition augment (embedding : ndarray) (k depth height width : nat)
    (alpha : R) (coordinate_scale : scale_arg) : M ndarray :=
  let scale := scale_tuple coordinate_scale in
  s0 <- lift (item scale 0) ;;
  a0 <- lift (np_arange depth s0) ;;
  s1 <- lift (item scale 1) ;;
  a1 <- lift (np_arange height s1) ;;
  s2 <- lift (item scale 2) ;;
  a2 <- lift (np_arange width s2) ;;
  let '(c0, c1, c2) := tf_meshgrid_ij a0 a1 a2 in
  let coordinates :=
    mkTensor float32 [3%nat; depth; height; width] (c0 ++ c1 ++ c2) in
  embedding <- lift (tf_concat_0 embedding coordinates) ;;
  max_scale <- lift (np_max scale) ;;
  min_scale <- lift (np_min scale) ;;
  let min_d := min_scale in
  let max_d := sqrt (max_scale * max_scale + INR k) in
  (if Rlt_dec (max_d - min_d) alpha
   then logger_warn
          "Your alpha is too big: min and max ultrametric between any pair of points is %f and %f (this assumes your embedding is in [0, 1], if it is not, you might ignore this warning)"
          [min_d; max_d]
   else ret tt) ;;;
  ret embedding.

(** Steps 1 and 2 of [ultrametric_loss_op]: one embedding vector and one
    label per point, after augmentation and masking. *)
Definition flatten_points (embedding : ndarray) (gt_seg : tensor Z)
    (mask : option (tensor bool)) (alpha : R) (add_coordinates : bool)
    (coordinate_scale : scale_arg) : M (ndarray * tensor Z) :=
  match t_shape embedding with
  | [k; depth; height; width] =>
      embedding <- (if add_coordinates
                    then augment embedding k depth height width alpha
                           coordinate_scale
                    else ret embedding) ;;
      embedding <- lift (tf_transpose_1230 embedding) ;;
      embedding <- lift (tf_reshape_rows embedding (depth * width * height)) ;;
      gt_seg <- lift (tf_reshape_flat gt_seg (depth * width * height)) ;;
      match mask with
      | Some mask =>
          mask <- lift (tf_reshape_flat mask (depth * width * height)) ;;
          embedding <- lift (tf_boolean_mask embedding mask) ;;
          gt_seg <- lift (tf_boolean_mask gt_seg mask) ;;
          ret (embedding, gt_seg)
      | None => ret (embedding, gt_seg)
      end
  | _ => raise ValueError
  end.

(** The pair-only loss of the pretrain branch, from the squared and plain
    edge lengths and the outputs of [get_um_loss]. *)
Definition pretrain_loss (dist_squared dist alpha : ndarray)
    (ratio_pos ratio_neg num_pairs_pos num_pairs_neg : ndarray)
    (pretrain_balance : bool) : result ndarray :=
  loss_pos <-- tf_multiply dist_squared ratio_pos ;;
  margin <-- tf_subtract alpha dist ;;
  loss_neg <-- tf_multiply (tf_square (tf_maximum_const 0 margin)) ratio_neg ;;
  if pretrain_balance
  then tf_add (tf_reduce_sum loss_pos) (tf_reduce_sum loss_neg)
  else
    sum_pos <-- tf_multiply (tf_reduce_sum loss_pos) num_pairs_pos ;;
    sum_neg <-- tf_multiply (tf_reduce_sum loss_neg) num_pairs_neg ;;
    num_pairs <-- tf_add num_pairs_pos num_pairs_neg ;;
    total <-- tf_add sum_pos sum_neg ;;
    tf_divide total num_pairs.

(** The tuple [(loss, emst, edges_u, edges_v, dist)]. *)
Record loss_outputs : Type := mkOut {
  out_loss : ndarray;
  out_emst : ndarray;
  out_edges_u : ndarray;
  out_edges_v : ndarray;
  out_dist : ndarray
}.

Definition um_Tout : list dtype :=
  [float32; float32; float32; float32; float32].

(** Steps 3 to 5 of [ultrametric_loss_op]. *)
Definition loss_of_points (embedding : ndarray) (gt_seg : tensor Z)
    (alpha : R) (pretrain pretrain_balance : bool) (name : option string)
  : M loss_outputs :=
  emst <- get_emst_op embedding None ;;
  index_u <- lift (index_column emst 0) ;;
  edges_u <- lift (tf_gather embedding index_u) ;;
  index_v <- lift (index_column emst 1) ;;
  edges_v <- lift (tf_gather embedding index_v) ;;
  diff <- lift (tf_subtract edges_u edges_v) ;;
  dist_squared <- lift (tf_reduce_sum_1 (tf_square diff)) ;;
  let dist := tf_sqrt dist_squared in
  let alpha := scalar float32 alpha in
  loss <-
    (if pretrain
     then
       outs <- py_func F_get_um_loss call_get_um_loss
                 [VF emst; VF dist; VI gt_seg; VF alpha] um_Tout name false ;;
       match outs with
       | [_; VF ratio_pos; VF ratio_neg; VF num_pairs_pos; VF num_pairs_neg] =>
           lift (pretrain_loss dist_squared dist alpha ratio_pos ratio_neg
                   num_pairs_pos num_pairs_neg pretrain_balance)
       | _ => raise ValueError
       end
     else
       outs <- py_func_gradient F_get_um_loss call_get_um_loss
                 [VF emst; VF dist; VI gt_seg; VF alpha] um_Tout name false ;;
       out <- lift (item outs 0) ;;
       lift (as_float out)) ;;
  ret (mkOut loss emst edges_u edges_v dist).

Definition ultrametric_loss_op (embedding : ndarray) (gt_seg : tensor Z)
    (mask : option (tensor bool)) (alpha : R) (add_coordinates : bool)
    (coordinate_scale : scale_arg) (pretrain pretrain_balance : bool)
    (name : option string) : M loss_outputs :=
  points <- flatten_points embedding gt_seg mask alpha add_coordinates
              coordinate_scale ;;
  loss_of_points (fst points) (snd points) alpha pretrain pretrain_balance name.

End Wrappers.

(** ** Example inputs

    Two points with a one-dimensional embedding, [0] and [1], labelled [1]
    and [2]: a volume of shape [(1, 1, 2)] with one embedding channel. *)

Definition w0 : world := mkWorld [] [].

Definition ex_embedding : ndarray :=
  mkTensor float32 [1; 1; 1; 2]%nat [0; 1].

Definition ex_gt_seg : tensor Z := mkTensor int64 [1; 1; 2]%nat [1%Z; 2%Z].

Definition ex_mask : tensor bool :=
  mkTensor bool_ [1; 1; 2]%nat [true; false].

(** The two points as [flatten_points] hands them on. *)
Definition ex_points : ndarray := mkTensor float32 [2; 1]%nat [0; 1].

Definition ex_labels : tensor Z := mkTensor int64 [2]%nat [1%Z; 2%Z].


(** ** The interface of the specification

    The specification describes one combined call, [compute_loss], whose
    result carries the loss, its gradient, the ratios and the pair counts,
    all narrowed to the output precision; [compute_gradient] is its gradient
    field. *)

Record LossResult : Type := mkLossResult {
  lr_loss : ndarray;
  lr_gradient : ndarray;
  lr_ratio_pos : ndarray;
  lr_ratio_neg : ndarray;
  lr_num_pairs_pos : ndarray;
  lr_num_pairs_neg : ndarray
}.

Definition compute_loss
    (um_loss : ndarray -> tensor Z -> ndarray -> result um_result)
    (mst : ndarray) (gt_seg : tensor Z) (alpha : ndarray)
  : result LossResult :=
  r <-- um_loss mst gt_seg alpha ;;
  Ok (mkLossResult (np_float32 (um_loss_value r))
        (astype float32 (um_gradient r))
        (astype float32 (um_ratio_pos r))
        (astype float32 (um_ratio_neg r))
        (np_float32 (um_num_pairs_pos r))
        (np_float32 (um_num_pairs_neg r))).

Definition rmap {A B} (f : A -> B) (r : result A) : result B :=
  x <-- r ;; Ok (f x).

(** An answer of the core for the two example points: one edge, which
    carries no positive pair and the only negative pair.  The loss and the
    gradient entry are sample values: no property depends on how the core
    computes them. *)
Definition ex_um_result : um_result :=
  mkUm 0 (mkTensor float64 [1%nat] [2])
    (mkTensor float64 [1%nat] [0]) (mkTensor float64 [1%nat] [1]) 0 1.

(** Modelled from the spec: the answer of the Pair Counter and Margin Loss
    Engine ([.impl.um_loss], which is not part of this file) on the two
    example points. *)
Definition ex_um_loss (mst : ndarray) (gt_seg : tensor Z) (alpha : ndarray)
  : result um_result :=
  Ok ex_um_result.

(** The MST of the two example points: the edge [(0, 1)] of length [1]. *)
Definition ex_emst : ndarray := mkTensor float64 [1; 3]%nat [0; 1; 1].

(** Modelled from the spec: the answer of the MST Builder ([.impl.emst],
    which is not part of this file) on the two example points, their one
    edge. *)
Definition ex_euclidean_mst (points : ndarray) : result ndarray := Ok ex_emst.


(** A single point: a volume of shape [(1, 1, 1)] with one embedding
    channel.  Its spanning tree has no edge, and the core defines the loss
    of an edgeless tree as zero with an empty gradient. *)
Definition one_point_embedding : ndarray :=
  mkTensor float32 [1; 1; 1; 1]%nat [0].

Definition one_point_gt_seg : tensor Z := mkTensor int64 [1; 1; 1]%nat [1%Z].

Definition no_edges : ndarray := mkTensor float64 [0; 3]%nat [].

(** Modelled from the spec: the MST Builder ([.impl.emst], which is not part
    of this file) on one point: [N - 1 = 0] edges. *)
Definition one_point_euclidean_mst (points : ndarray) : result ndarray :=
  Ok no_edges.

(** Modelled from the spec: the Margin Loss Engine ([.impl.um_loss], which
    is not part of this file) on fewer than two points: loss [0], an empty
    gradient, no pairs. *)
Definition degenerate_um_loss (mst : ndarray) (gt_seg : tensor Z)
    (alpha : ndarray) : result um_result :=
  Ok (mkUm 0 (mkTensor float64 [0%nat] []) (mkTensor float64 [0%nat] [])
        (mkTensor float64 [0%nat] []) 0 0).



(** The diagnostic of [get_emst] and the node of [get_emst_op]. *)
Definition emst_format : string := "min/max ultrametric: %f/%f".

Definition emst_node (name : option string) : node :=
  mkNode F_get_emst [float64] name false false.


(** ** The pair-only loss as the specification states it

    The edges of the MST are the rows [(u, v, distance)] of [emst]; the
    length [d_i] of edge [i] is the Euclidean distance between the embedding
    vectors of its two endpoints. *)

Definition endpoints (emst : ndarray) (j : nat) : list Z :=
  match index_column emst j with
  | Ok l => l
  | Raise _ => []
  end.

(** Every endpoint is the index of one of the [n] points. *)
Definition valid_edges (n : nat) (emst : ndarray) : Prop :=
  Forall (fun i => (0 <= i < Z.of_nat n)%Z)
    (endpoints emst 0 ++ endpoints emst 1).

Definition point (points : ndarray) (i : Z) : list R :=
  match t_shape points with
  | [_; c] => row c (t_data points) (Z.to_nat i)
  | _ => []
  end.

Definition euclidean_distance (x y : list R) : R :=
  sqrt (sum (zip_with (fun a b => (a - b) * (a - b)) x y)).

Definition edge_length (points emst : ndarray) (i : nat) : R :=
  euclidean_distance (point points (nth i (endpoints emst 0) 0%Z))
                     (point points (nth i (endpoints emst 1) 0%Z)).

(** The sum over the edges [0 .. m-1]. *)
Definition sum_edges (m : nat) (f : nat -> R) : R := sum (map f (seq 0 m)).

Definition hinge (alpha d : R) : R := Rmax 0 (alpha - d).

Definition sum_loss_pos (m : nat) (d ratio_pos : nat -> R) : R :=
  sum_edges m (fun i => d i * d i * ratio_pos i).

Definition sum_loss_neg (m : nat) (alpha : R) (d ratio_neg : nat -> R) : R :=
  sum_edges m (fun i => hinge alpha (d i) * hinge alpha (d i) * ratio_neg i).

Definition unbalanced_loss (m : nat) (alpha : R) (d ratio_pos ratio_neg : nat -> R)
    (num_pairs_pos num_pairs_neg : R) : R :=
  (sum_loss_pos m d ratio_pos * num_pairs_pos
   + sum_loss_neg m alpha d ratio_neg * num_pairs_neg)
  / (num_pairs_pos + num_pairs_neg).

Definition balanced_loss (m : nat) (alpha : R) (d ratio_pos ratio_neg : nat -> R)
  : R :=
  sum_loss_pos m d ratio_pos + sum_loss_neg m alpha d ratio_neg.

(** Entry [i] of a vector. *)
Definition entry (a : ndarray) (i : nat) : R := nth i (t_data a) 0.


(** The node of the loss, as [ultrametric_loss_op] creates it. *)
Definition um_loss_node (name : option string) (has_gradient : bool) : node :=
  mkNode F_get_um_loss um_Tout name false has_gradient.


(** Modelled from the spec: a Margin Loss Engine that rejects a negative
    [alpha] at its start, as the error taxonomy of the specification
    demands of each component; the compiled core itself is not part of this
    file.  On a valid [alpha] it answers as [ex_um_loss]. *)
Definition strict_um_loss (mst : ndarray) (gt_seg : tensor Z)
    (alpha : ndarray) : result um_result :=
  if Rlt_dec (entry alpha 0) 0 then Raise CoreError else Ok ex_um_result.


(** The node of the backward pass, and the warning of step 1. *)
Definition gradient_node : node :=
  mkNode F_get_um_loss_gradient [float32] None false false.

Definition alpha_warning_format : string :=
  "Your alpha is too big: min and max ultrametric between any pair of points is %f and %f (this assumes your embedding is in [0, 1], if it is not, you might ignore this warning)".


(** * Properties *)

(** ** Inversion of monadic runs *)

Lemma bind_ok {A B} (m : M A) (k : A -> M B) w b w' :
  bind m k w = (Ok b, w') ->
  exists a w1, m w = (Ok a, w1) /\ k a w1 = (Ok b, w').
Proof.
  unfold bind. destruct (m w) as [[a | e] w1]; intros H.
  - exists a, w1. split; [reflexivity | exact H].
  - discriminate H.
Qed.

Lemma bind_run {A B} (m : M A) (k : A -> M B) w a w1 :
  m w = (Ok a, w1) -> bind m k w = k a w1.
Proof. intros H. unfold bind. rewrite H. reflexivity. Qed.

Lemma bind_raise {A B} (m : M A) (k : A -> M B) w e w1 :
  m w = (Raise e, w1) -> bind m k w = (Raise e, w1).
Proof. intros H. unfold bind. rewrite H. reflexivity. Qed.

Lemma lift_ok {A} (r : result A) w a w' :
  lift r w = (Ok a, w') -> r = Ok a /\ w' = w.
Proof. unfold lift. intros H. inversion H. split; reflexivity. Qed.

Lemma ret_ok {A} (x : A) w a w' :
  ret x w = (Ok a, w') -> a = x /\ w' = w.
Proof. unfold ret. intros H. inversion H. split; reflexivity. Qed.

Lemma rbind_ok {A B} (r : result A) (k : A -> result B) b :
  rbind r k = Ok b -> exists a, r = Ok a /\ k a = Ok b.
Proof.
  destruct r as [a | e]; simpl; intros H.
  - exists a. split; [reflexivity | exact H].
  - discriminate H.
Qed.

(** Decomposes a hypothesis stating that a monadic run succeeded. *)
Ltac inv_run H :=
  match type of H with
  | bind _ _ _ = (Ok _, _) =>
      let a := fresh "a" in
      let w := fresh "w" in
      let H1 := fresh "Hrun" in
      apply bind_ok in H; destruct H as (a & w & H1 & H);
      inv_run H1; inv_run H
  | lift _ _ = (Ok _, _) =>
      let E := fresh "E" in
      apply lift_ok in H; destruct H as [H E]; subst
  | ret _ _ = (Ok _, _) =>
      let E := fresh "E" in
      apply ret_ok in H; destruct H as [H E]; subst
  | raise _ _ = (Ok _, _) => discriminate H
  | _ => idtac
  end.

(** ** Lists of rows *)

Lemma length_flat_map_rows {A B} (f : A -> list B) (c : nat) (l : list A) :
  (forall x, In x l -> length (f x) = c) ->
  length (flat_map f l) = (length l * c)%nat.
Proof.
  induction l as [| x l IH]; intros H; simpl.
  - reflexivity.
  - rewrite length_app, H by (left; reflexivity).
    rewrite IH by (intros y Hy; apply H; right; exact Hy). reflexivity.
Qed.

Lemma length_row {A} (c : nat) (data : list A) (i n : nat) :
  length data = (n * c)%nat -> (i < n)%nat -> length (row c data i) = c.
Proof.
  intros Hlen Hi. unfold row.
  rewrite length_firstn, length_skipn, Hlen. nia.
Qed.

Lemma length_zip_with {A B C} (f : A -> B -> C) l1 l2 :
  length l1 = length l2 -> length (zip_with f l1 l2) = length l1.
Proof.
  revert l2. induction l1 as [| x l1 IH]; intros [| y l2] H; simpl in *;
    try discriminate; [reflexivity |].
  f_equal. apply IH. lia.
Qed.

(** ** Shapes after flattening *)

Lemma tf_concat_0_ok a b r :
  tf_concat_0 a b = Ok r ->
  exists n m rest, t_shape a = n :: rest /\ t_shape b = m :: rest /\
    t_dtype a = t_dtype b /\
    r = mkTensor (t_dtype a) ((n + m)%nat :: rest) (t_data a ++ t_data b).
Proof.
  unfold tf_concat_0.
  destruct (dtype_eqb (t_dtype a) (t_dtype b)) eqn:Hd; simpl; [| discriminate].
  destruct (t_shape a) as [| n ra]; [discriminate |].
  destruct (t_shape b) as [| m rb]; [discriminate |].
  unfold shape_eqb. destruct (list_eq_dec Nat.eq_dec ra rb) as [-> | _];
    [| discriminate].
  intros H. inversion H. exists n, m, rb. repeat split.
  destruct (t_dtype a), (t_dtype b); try discriminate; reflexivity.
Qed.

Lemma augment_ok embedding k depth height width alpha cs w e' w' :
  augment embedding k depth height width alpha cs w = (Ok e', w') ->
  t_shape embedding = [k; depth; height; width] ->
  t_shape e' = [(k + 3)%nat; depth; height; width] /\
  t_dtype embedding = float32 /\ t_dtype e' = float32.
Proof.
  unfold augment, tf_meshgrid_ij. intros H Hs.
  inv_run H.
  apply tf_concat_0_ok in Hrun5.
  destruct Hrun5 as (n & m & rest & Ha & Hb & Hd & E).
  subst. simpl in *. rewrite Hs in Ha. inversion Ha; subst.
  inversion Hb; subst. rewrite Hd. auto.
Qed.

Lemma tf_transpose_1230_ok t c d h w :
  t_shape t = [c; d; h; w] ->
  exists r, tf_transpose_1230 t = Ok r /\ t_dtype r = t_dtype t /\
    t_shape r = [d; h; w; c] /\ length (t_data r) = (d * h * w * c)%nat.
Proof.
  intros Hs. unfold tf_transpose_1230. rewrite Hs.
  eexists. split; [reflexivity |]. simpl. repeat split.
  rewrite (length_flat_map_rows _ c).
  - rewrite length_seq. reflexivity.
  - intros x _. rewrite length_map, length_seq. reflexivity.
Qed.

Lemma tf_reshape_rows_ok {A} (t : tensor A) n c r :
  length (t_data t) = (n * c)%nat ->
  tf_reshape_rows t n = Ok r ->
  r = mkTensor (t_dtype t) [n; c] (t_data t) /\ n <> 0%nat.
Proof.
  intros Hlen. unfold tf_reshape_rows.
  destruct (n =? 0)%nat eqn:Hn; [discriminate |].
  apply Nat.eqb_neq in Hn.
  destruct (_ =? 0)%nat; [| discriminate].
  intros H. inversion H. split; [| exact Hn].
  rewrite Hlen, Nat.mul_comm, Nat.div_mul by exact Hn. reflexivity.
Qed.

Lemma tf_reshape_flat_ok {A} (t : tensor A) n r :
  tf_reshape_flat t n = Ok r ->
  r = mkTensor (t_dtype t) [n] (t_data t) /\ length (t_data t) = n.
Proof.
  unfold tf_reshape_flat. destruct (_ =? _)%nat eqn:E; [| discriminate].
  apply Nat.eqb_eq in E. intros H. inversion H. split; [reflexivity | exact E].
Qed.

Lemma tf_boolean_mask_ok {A} (t : tensor A) mask n rest r :
  t_shape t = n :: rest ->
  length (t_data t) = (n * prod rest)%nat ->
  tf_boolean_mask t mask = Ok r ->
  exists keep,
    keep = filter (fun i => nth i (t_data mask) false) (seq 0 n) /\
    t_shape mask = [n] /\
    t_dtype r = t_dtype t /\
    t_shape r = length keep :: rest /\
    length (t_data r) = (length keep * prod rest)%nat.
Proof.
  intros Hs Hlen. unfold tf_boolean_mask. rewrite Hs.
  destruct (t_shape mask) as [| m [| ? ?]]; try discriminate.
  destruct (n =? m)%nat eqn:E; [| discriminate].
  apply Nat.eqb_eq in E. subst m.
  intros H. inversion H. eexists. split; [reflexivity |]. simpl.
  repeat split.
  apply length_flat_map_rows. intros i Hi.
  apply filter_In in Hi. destruct Hi as [Hi _]. apply in_seq in Hi.
  apply (length_row _ _ _ n); [exact Hlen | lia].
Qed.

(** What [flatten_points] hands on: [n] embedding vectors of one length and
    [n] labels. *)
Lemma flatten_points_ok embedding gt_seg mask alpha add_coordinates cs
    w points labels w' :
  flatten_points embedding gt_seg mask alpha add_coordinates cs w
    = (Ok (points, labels), w') ->
  exists n c,
    t_shape points = [n; c] /\ length (t_data points) = (n * c)%nat /\
    t_shape labels = [n] /\ length (t_data labels) = n /\
    t_dtype points = t_dtype embedding /\ t_dtype labels = t_dtype gt_seg.
Proof.
  unfold flatten_points. intros H.
  destruct (t_shape embedding) as [| k [| depth [| height [| width [| ? ?]]]]]
    eqn:Hs; try discriminate H.
  apply bind_ok in H. destruct H as (e1 & w1 & He1 & H).
  assert (Hsh1 : exists c, t_shape e1 = [c; depth; height; width] /\
                           t_dtype e1 = t_dtype embedding).
  { destruct add_coordinates.
    - apply augment_ok in He1; [| exact Hs].
      destruct He1 as (S1 & D1 & D2). eexists. split; [exact S1 | congruence].
    - inv_run He1. eexists. split; [exact Hs | reflexivity]. }
  destruct Hsh1 as (c & Hsh1 & Hd1).
  apply bind_ok in H. destruct H as (e2 & w2 & He2 & H). inv_run He2.
  destruct (tf_transpose_1230_ok e1 c depth height width Hsh1)
    as (r & Hr & Hrd & Hrs & Hrl).
  rewrite Hr in He2. inversion He2; subst e2. clear He2.
  apply bind_ok in H. destruct H as (e3 & w3 & He3 & H). inv_run He3.
  apply (tf_reshape_rows_ok r (depth * width * height) c) in He3;
    [| rewrite Hrl; f_equal; lia].
  destruct He3 as [-> HD].
  apply bind_ok in H. destruct H as (g1 & w4 & Hg1 & H). inv_run Hg1.
  apply tf_reshape_flat_ok in Hg1. destruct Hg1 as [-> Hgl].
  destruct mask as [mask |].
  - inv_run H.
    apply tf_reshape_flat_ok in Hrun. destruct Hrun as [-> Hml].
    eapply tf_boolean_mask_ok in Hrun0;
      [| reflexivity | simpl; rewrite Hrl; lia].
    eapply tf_boolean_mask_ok in Hrun1;
      [| reflexivity | simpl; lia].
    destruct Hrun0 as (keep & Hk & _ & Hd & Hsp & Hlp).
    destruct Hrun1 as (keep' & Hk' & _ & Hd' & Hsp' & Hlp').
    simpl in *. inversion H; subst points labels.
    assert (keep' = keep) by congruence. subst keep'.
    exists (length keep), c. rewrite Hsp, Hsp', Hlp, Hlp', Hd, Hd'.
    rewrite H0. repeat split; try lia; congruence.
  - inv_run H. inversion H; subst points labels. simpl.
    exists (depth * width * height)%nat, c.
    repeat split; try lia; try congruence.
Qed.





(** ** The two entry points of the loss *)

(** C9. The [dist] argument of [get_um_loss] and [get_um_loss_gradient] has
    no influence on their results, whether they are called directly or as
    [py_func] callables: the result is a function of
    [um_loss mst gt_seg alpha] alone. *)
Theorem dist_argument_is_ignored :
  forall um_loss mst dist1 dist2 gt_seg alpha,
    get_um_loss um_loss mst dist1 gt_seg alpha
      = get_um_loss um_loss mst dist2 gt_seg alpha /\
    get_um_loss_gradient um_loss mst dist1 gt_seg alpha
      = get_um_loss_gradient um_loss mst dist2 gt_seg alpha /\
    call_get_um_loss um_loss [VF mst; VF dist1; VI gt_seg; VF alpha]
      = call_get_um_loss um_loss [VF mst; VF dist2; VI gt_seg; VF alpha] /\
    call_get_um_loss_gradient um_loss [VF mst; VF dist1; VI gt_seg; VF alpha]
      = call_get_um_loss_gradient um_loss
          [VF mst; VF dist2; VI gt_seg; VF alpha].
Proof.
  intros um_loss mst dist1 dist2 gt_seg alpha.
  repeat split; reflexivity.
Qed.

(** C5. The gradient returned by [get_um_loss_gradient] is the gradient field
    of the combined result of the specification, computed by the same call
    [um_loss mst gt_seg alpha] from which [get_um_loss] takes the loss, the
    ratios and the pair counts; both narrow to float32, and both fail alike
    when the core fails. *)
Theorem gradient_entry_point_matches_combined_call :
  forall um_loss mst dist dist' gt_seg alpha,
    get_um_loss_gradient um_loss mst dist gt_seg alpha
      = rmap lr_gradient (compute_loss um_loss mst gt_seg alpha) /\
    get_um_loss um_loss mst dist' gt_seg alpha
      = rmap (fun l => (lr_loss l, lr_ratio_pos l, lr_ratio_neg l,
                        lr_num_pairs_pos l, lr_num_pairs_neg l))
          (compute_loss um_loss mst gt_seg alpha).
Proof.
  intros um_loss mst dist dist' gt_seg alpha.
  unfold get_um_loss_gradient, get_um_loss, compute_loss, rmap.
  destruct (um_loss mst gt_seg alpha) as [r | e]; split; reflexivity.
Qed.

Lemma get_um_loss_gradient_dtype um_loss mst dist gt_seg alpha g :
  get_um_loss_gradient um_loss mst dist gt_seg alpha = Ok g ->
  t_dtype g = float32.
Proof.
  unfold get_um_loss_gradient. intros H.
  apply rbind_ok in H. destruct H as (r & _ & H). inversion H. reflexivity.
Qed.

(** The backward pass on the inputs of the forward node. *)
Lemma get_um_loss_gradient_op_run um_loss mst dist gt_seg alpha dloss
    d1 d2 d3 d4 w :
  get_um_loss_gradient_op um_loss (mkOp [VF mst; VF dist; VI gt_seg; VF alpha])
    dloss d1 d2 d3 d4 w
  = (g <-- get_um_loss_gradient um_loss mst dist gt_seg alpha ;;
     scaled <-- tf_multiply g dloss ;;
     Ok (None, Some scaled, None, None),
     mkWorld (logs w)
       (graph w ++ [mkNode F_get_um_loss_gradient [float32] None false false])).
Proof.
  unfold get_um_loss_gradient_op, py_func, run_node, bind, add_node, lift,
    call_get_um_loss_gradient. simpl.
  destruct (get_um_loss_gradient um_loss mst dist gt_seg alpha) as [g | e]
    eqn:Hg; simpl; [| reflexivity].
  rewrite (get_um_loss_gradient_dtype _ _ _ _ _ _ Hg). simpl.
  unfold ret. simpl.
  destruct (tf_multiply g dloss); reflexivity.
Qed.

(** C4. The registered backward pass returns a gradient for the edge
    distances only and [None] for the MST, the labels and [alpha], whatever
    node it is invoked on; on the inputs [(emst, dist, gt_seg, alpha)] of the
    forward node that gradient is the core gradient multiplied by the
    incoming gradient of the loss. *)
Theorem gradient_only_for_distances :
  forall um_loss op dloss d1 d2 d3 d4 w,
    (forall r,
        fst (get_um_loss_gradient_op um_loss op dloss d1 d2 d3 d4 w) = Ok r ->
        exists scaled, r = (None, Some scaled, None, None)) /\
    (forall mst dist gt_seg alpha g scaled,
        op_inputs op = [VF mst; VF dist; VI gt_seg; VF alpha] ->
        get_um_loss_gradient um_loss mst dist gt_seg alpha = Ok g ->
        tf_multiply g dloss = Ok scaled ->
        fst (get_um_loss_gradient_op um_loss op dloss d1 d2 d3 d4 w)
        = Ok (None, Some scaled, None, None)).
Proof.
  intros um_loss op dloss d1 d2 d3 d4 w. split.
  - intros r H.
    destruct (get_um_loss_gradient_op um_loss op dloss d1 d2 d3 d4 w)
      as [r' w'] eqn:E.
    simpl in H. subst r'. unfold get_um_loss_gradient_op in E.
    inv_run E. eexists. reflexivity.
  - intros mst dist gt_seg alpha g scaled Hop Hg Hs.
    destruct op as [inputs]. simpl in Hop. subst inputs.
    rewrite get_um_loss_gradient_op_run, Hg. simpl. rewrite Hs. reflexivity.
Qed.

Lemma gradient_only_for_distances_witness :
  fst (get_um_loss_gradient_op ex_um_loss
         (mkOp [VF ex_emst; VF (mkTensor float32 [1%nat] [1]); VI ex_labels;
                VF (scalar float32 1)])
         (scalar float32 3) None None None None w0)
  = Ok (None, Some (mkTensor float32 [1%nat] [2 * 3]), None, None).
Proof.
  apply (proj2 (gradient_only_for_distances ex_um_loss
                  (mkOp [VF ex_emst; VF (mkTensor float32 [1%nat] [1]);
                         VI ex_labels; VF (scalar float32 1)])
                  (scalar float32 3) None None None None w0)
           ex_emst (mkTensor float32 [1%nat] [1]) ex_labels (scalar float32 1)
           (mkTensor float32 [1%nat] [2]) (mkTensor float32 [1%nat] [2 * 3]));
    reflexivity.
Defined.

(** ** The MST builder *)

Lemma run_node_run n func inp w outs w' :
  func inp (mkWorld (logs w) (graph w ++ [n])) = (Ok outs, w') ->
  check_dtypes outs (node_Tout n) = true ->
  run_node n func inp w = (Ok outs, w').
Proof.
  intros H Hc. unfold run_node, bind, add_node. rewrite H, Hc. reflexivity.
Qed.

Lemma column_nonempty {A} (d : A) (a : tensor A) n c j :
  t_shape a = [S n; c] -> (j < c)%nat ->
  exists x l, column d a j = Ok (x :: l).
Proof.
  intros Hs Hj. unfold column. rewrite Hs.
  apply Nat.ltb_lt in Hj. rewrite Hj. simpl. eexists _, _. reflexivity.
Qed.

Lemma get_emst_run euclidean_mst embedding w emst n c :
  euclidean_mst (astype float64 embedding) = Ok emst ->
  t_shape emst = [S n; c] -> (2 < c)%nat ->
  exists d_min d_max,
    get_emst euclidean_mst embedding w
    = (Ok emst,
       mkWorld (logs w ++ [mkLog INFO emst_format [d_min; d_max]]) (graph w)).
Proof.
  intros Hm Hs Hc. unfold get_emst.
  destruct (column_nonempty 0 emst n c 2 Hs Hc) as (x & l & Hcol).
  unfold bind, lift. rewrite Hm, Hcol. simpl.
  eexists _, _. reflexivity.
Qed.

Lemma get_emst_ok euclidean_mst embedding w emst w' :
  get_emst euclidean_mst embedding w = (Ok emst, w') ->
  euclidean_mst (astype float64 embedding) = Ok emst /\
  exists n c, t_shape emst = [S n; c] /\ (2 < c)%nat.
Proof.
  unfold get_emst. intros H. inv_run H. split; [assumption |].
  unfold column in Hrun0.
  destruct (t_shape a) as [| n [| c [| ? ?]]]; try discriminate.
  destruct (2 <? c)%nat eqn:Hc; [| discriminate].
  apply Nat.ltb_lt in Hc. inversion Hrun0; subst.
  destruct n; [discriminate |]. exists n, c. split; [reflexivity | exact Hc].
Qed.

Lemma get_emst_op_run euclidean_mst embedding name w emst n c :
  euclidean_mst (astype float64 embedding) = Ok emst ->
  t_dtype emst = float64 ->
  t_shape emst = [S n; c] -> (2 < c)%nat ->
  exists d_min d_max,
    get_emst_op euclidean_mst embedding name w
    = (Ok emst,
       mkWorld (logs w ++ [mkLog INFO emst_format [d_min; d_max]])
         (graph w ++ [emst_node name])).
Proof.
  intros Hm Hd Hs Hc.
  set (w1 := mkWorld (logs w) (graph w ++ [emst_node name])).
  destruct (get_emst_run euclidean_mst embedding w1 emst n c Hm Hs Hc)
    as (d_min & d_max & Hrun).
  exists d_min, d_max. unfold get_emst_op, py_func.
  rewrite (bind_run _ _ _ [VF emst]
             (mkWorld (logs w ++ [mkLog INFO emst_format [d_min; d_max]])
                (graph w ++ [emst_node name]))).
  - reflexivity.
  - apply run_node_run.
    + unfold call_get_emst. fold (emst_node name). fold w1.
      rewrite (bind_run _ _ _ _ _ Hrun). reflexivity.
    + simpl. rewrite Hd. reflexivity.
Qed.

Lemma get_emst_op_ok euclidean_mst embedding name w emst w' :
  get_emst_op euclidean_mst embedding name w = (Ok emst, w') ->
  euclidean_mst (astype float64 embedding) = Ok emst /\
  t_dtype emst = float64 /\
  exists n c, t_shape emst = [S n; c] /\ (2 < c)%nat.
Proof.
  unfold get_emst_op, py_func, run_node, call_get_emst. intros H.
  apply bind_ok in H. destruct H as (outs & w1 & H1 & H).
  apply bind_ok in H1. destruct H1 as ([] & w2 & _ & H1).
  apply bind_ok in H1. destruct H1 as (outs' & w3 & H1 & H2).
  apply bind_ok in H1. destruct H1 as (r & w4 & H1 & H3).
  apply ret_ok in H3. destruct H3 as [-> ->].
  cbn [check_dtypes value_dtype node_Tout] in H2.
  destruct (dtype_eqb (t_dtype r) float64) eqn:Hd; simpl in H2;
    [| discriminate H2].
  apply ret_ok in H2. destruct H2 as [-> ->].
  inv_run H. simpl in Hrun. inversion Hrun; subst a.
  simpl in H. inversion H; subst emst.
  apply get_emst_ok in H1. destruct H1 as [Hm Hs].
  split; [exact Hm |]. split; [| exact Hs].
  destruct (t_dtype r); try discriminate; reflexivity.
Qed.

(** With no edge, the diagnostic minimum is taken over an empty column. *)
Lemma get_emst_no_edges euclidean_mst embedding w emst c :
  euclidean_mst (astype float64 embedding) = Ok emst ->
  t_shape emst = [0%nat; c] -> (2 < c)%nat ->
  get_emst euclidean_mst embedding w = (Raise ValueError, w).
Proof.
  intros Hm Hs Hc. unfold get_emst, bind, lift, column.
  rewrite Hm, Hs. apply Nat.ltb_lt in Hc. rewrite Hc. reflexivity.
Qed.

(** C6. The MST builder works in double precision whatever the precision of
    the embedding: [get_emst] hands the core the embedding as a float64 array
    (same shape, same values) and depends on the core through that call
    only; an MST that [get_emst_op] returns is a float64 array, the one the
    core computed from the float64 embedding; and a float64 edge array of at
    least one edge is returned as it is. *)
Theorem mst_builder_uses_float64 :
  forall euclidean_mst embedding name w,
    (t_dtype (astype float64 embedding) = float64 /\
     t_shape (astype float64 embedding) = t_shape embedding /\
     t_data (astype float64 embedding) = t_data embedding) /\
    (forall other_mst,
        other_mst (astype float64 embedding)
          = euclidean_mst (astype float64 embedding) ->
        get_emst_op other_mst embedding name w
          = get_emst_op euclidean_mst embedding name w) /\
    (forall emst w',
        get_emst_op euclidean_mst embedding name w = (Ok emst, w') ->
        t_dtype emst = float64 /\
        euclidean_mst (astype float64 embedding) = Ok emst) /\
    (forall emst n c,
        euclidean_mst (astype float64 embedding) = Ok emst ->
        t_dtype emst = float64 ->
        t_shape emst = [S n; c] -> (2 < c)%nat ->
        fst (get_emst_op euclidean_mst embedding name w) = Ok emst).
Proof.
  intros em embedding name w. repeat split.
  - intros other H.
    unfold get_emst_op, py_func, run_node, call_get_emst, get_emst, bind, lift.
    simpl. rewrite H. reflexivity.
  - apply get_emst_op_ok in H. tauto.
  - apply get_emst_op_ok in H. tauto.
  - intros emst n c Hm Hd Hs Hc.
    destruct (get_emst_op_run em embedding name w emst n c Hm Hd Hs Hc)
      as (d_min & d_max & Hrun).
    rewrite Hrun. reflexivity.
Qed.

Lemma mst_builder_uses_float64_witness :
  fst (get_emst_op ex_euclidean_mst ex_points None w0) = Ok ex_emst.
Proof.
  apply (proj2 (proj2 (proj2
           (mst_builder_uses_float64 ex_euclidean_mst ex_points None w0)))
           ex_emst 0%nat 3%nat).
  - reflexivity.
  - reflexivity.
  - reflexivity.
  - unfold lt. apply le_n.
Defined.

(** ** Computations whose result does not depend on the world *)










(** ** Rows, sums and the pair-only loss *)

Lemma firstn_zip_with {A B C} (f : A -> B -> C) n l1 l2 :
  firstn n (zip_with f l1 l2) = zip_with f (firstn n l1) (firstn n l2).
Proof.
  revert l1 l2. induction n as [| n IH]; intros [| x l1] [| y l2]; simpl;
    try reflexivity.
  f_equal. apply IH.
Qed.

Lemma skipn_zip_with {A B C} (f : A -> B -> C) n l1 l2 :
  skipn n (zip_with f l1 l2) = zip_with f (skipn n l1) (skipn n l2).
Proof.
  revert l1 l2. induction n as [| n IH]; intros [| x l1] [| y l2]; simpl;
    try reflexivity.
  - destruct (skipn n l1); reflexivity.
  - apply IH.
Qed.

Lemma row_zip_with {A B C} (f : A -> B -> C) c l1 l2 i :
  row c (zip_with f l1 l2) i = zip_with f (row c l1 i) (row c l2 i).
Proof. unfold row. rewrite skipn_zip_with, firstn_zip_with. reflexivity. Qed.

Lemma row_map {A B} (f : A -> B) c l i :
  row c (map f l) i = map f (row c l i).
Proof. unfold row. rewrite skipn_map, firstn_map. reflexivity. Qed.

Lemma row_flat_map {A B} (f : A -> list B) (c : nat) (l : list A) (d : A) i :
  (forall x, In x l -> length (f x) = c) ->
  (i < length l)%nat ->
  row c (flat_map f l) i = f (nth i l d).
Proof.
  revert i. induction l as [| x l IH]; intros i Hlen Hi; simpl in Hi.
  - lia.
  - assert (Hx : length (f x) = c) by (apply Hlen; left; reflexivity).
    unfold row. cbn [flat_map]. destruct i as [| i].
    + simpl. rewrite firstn_app, Hx, Nat.sub_diag. simpl.
      rewrite app_nil_r. rewrite <- Hx. apply firstn_all.
    + replace (S i * c)%nat with (length (f x) + i * c)%nat by (rewrite Hx; lia).
      rewrite skipn_app.
      rewrite skipn_all2 by lia.
      replace (length (f x) + i * c - length (f x))%nat with (i * c)%nat by lia.
      simpl. apply IH; [| lia].
      intros y Hy. apply Hlen. right. exact Hy.
Qed.

Lemma map_zip_with {A B C D} (g : C -> D) (f : A -> B -> C) l1 l2 :
  map g (zip_with f l1 l2) = zip_with (fun a b => g (f a b)) l1 l2.
Proof.
  revert l2. induction l1 as [| x l1 IH]; intros [| y l2]; simpl;
    try reflexivity.
  f_equal. apply IH.
Qed.

Lemma zip_with_map_seq {A B} (f : A -> R -> B) (F : nat -> A) (l : list R)
    (s : nat) :
  zip_with f (map F (seq s (length l))) l
  = map (fun i => f (F i) (nth (i - s) l 0)) (seq s (length l)).
Proof.
  revert s. induction l as [| y l IH]; intros s; simpl.
  - reflexivity.
  - rewrite Nat.sub_diag. f_equal. rewrite IH.
    apply map_ext_in. intros i Hi. apply in_seq in Hi.
    replace (i - s)%nat with (S (i - S s)) by lia. reflexivity.
Qed.

Lemma sum_squares_nonneg (x y : list R) :
  0 <= sum (zip_with (fun a b => (a - b) * (a - b)) x y).
Proof.
  revert y. induction x as [| a x IH]; intros [| b y]; simpl;
    try apply Rle_refl.
  specialize (IH y).
  assert (H : 0 <= (a - b) * (a - b)) by apply Rle_0_sqr.
  lra.
Qed.

Lemma euclidean_distance_sqr (x y : list R) :
  euclidean_distance x y * euclidean_distance x y
  = sum (zip_with (fun a b => (a - b) * (a - b)) x y).
Proof.
  unfold euclidean_distance. apply sqrt_sqrt. apply sum_squares_nonneg.
Qed.

Lemma zip_with_map_seq_0 {A B} (f : A -> R -> B) (F : nat -> A) (l : list R)
    (k : nat) :
  length l = k ->
  zip_with f (map F (seq 0 k)) l
  = map (fun i => f (F i) (nth i l 0)) (seq 0 k).
Proof.
  intros <-. rewrite zip_with_map_seq. apply map_ext.
  intros i. rewrite Nat.sub_0_r. reflexivity.
Qed.

Lemma shape_eqb_refl s : shape_eqb s s = true.
Proof.
  unfold shape_eqb. destruct (list_eq_dec Nat.eq_dec s s); congruence.
Qed.

(** The pair-only loss computed by [pretrain_loss] from the edge lengths
    [d], in both balancing policies. *)
Lemma pretrain_loss_run (k : nat) (d : nat -> R) (alpha : R)
    (ratio_pos ratio_neg : ndarray) (P N : R) (balance : bool) :
  t_dtype ratio_pos = float32 -> t_shape ratio_pos = [k] ->
  length (t_data ratio_pos) = k ->
  t_dtype ratio_neg = float32 -> t_shape ratio_neg = [k] ->
  length (t_data ratio_neg) = k ->
  pretrain_loss
    (mkTensor float32 [k] (map (fun i => d i * d i) (seq 0 k)))
    (mkTensor float32 [k] (map d (seq 0 k)))
    (scalar float32 alpha) ratio_pos ratio_neg
    (np_float32 P) (np_float32 N) balance
  = Ok (scalar float32
          (if balance
           then balanced_loss k alpha d (entry ratio_pos) (entry ratio_neg)
           else unbalanced_loss k alpha d (entry ratio_pos) (entry ratio_neg)
                  P N)).
Proof.
  intros Hdp Hsp Hlp Hdn Hsn Hln.
  destruct ratio_pos as [dtp shp rp]. destruct ratio_neg as [dtn shn rn].
  simpl in *. subst dtp shp dtn shn.
  unfold pretrain_loss, tf_multiply, tf_subtract, tf_add, tf_divide, tf_binop,
    tf_square, tf_maximum_const, tf_map, tf_reduce_sum, np_float32, scalar.
  cbn [t_dtype t_shape t_data dtype_eqb negb rbind].
  rewrite !shape_eqb_refl.
  cbn [t_dtype t_shape t_data dtype_eqb negb rbind shape_eqb list_eq_dec].
  replace (shape_eqb [] [k]) with false by reflexivity.
  cbn [t_dtype t_shape t_data dtype_eqb negb rbind].
  rewrite shape_eqb_refl.
  cbn [t_dtype t_shape t_data dtype_eqb negb rbind].
  rewrite (zip_with_map_seq_0 Rmult (fun i => d i * d i) rp k Hlp).
  rewrite !map_map.
  rewrite (zip_with_map_seq_0 Rmult
             (fun i => Rmax 0 (alpha - d i) * Rmax 0 (alpha - d i)) rn k Hln).
  destruct balance; reflexivity.
Qed.

(** ** The lengths of the MST edges *)

Lemma dtype_eqb_refl d : dtype_eqb d d = true.
Proof. destruct d; reflexivity. Qed.

Lemma index_column_run emst k ce j :
  t_shape emst = [k; ce] -> (j < ce)%nat ->
  index_column emst j = Ok (endpoints emst j) /\
  length (endpoints emst j) = k.
Proof.
  intros Hs Hj. unfold endpoints, index_column, column. rewrite Hs.
  apply Nat.ltb_lt in Hj. rewrite Hj. simpl.
  split; [reflexivity |]. rewrite !length_map, length_seq. reflexivity.
Qed.

Lemma tf_gather_run points n c indices :
  t_shape points = [n; c] ->
  Forall (fun i => (0 <= i < Z.of_nat n)%Z) indices ->
  tf_gather points indices
  = Ok (mkTensor (t_dtype points) [length indices; c]
          (flat_map (fun i => row c (t_data points) (Z.to_nat i)) indices)).
Proof.
  intros Hs Hv. unfold tf_gather. rewrite Hs.
  replace (forallb _ indices) with true; [reflexivity |].
  symmetry. apply forallb_forall. intros i Hi.
  rewrite Forall_forall in Hv. specialize (Hv i Hi).
  apply andb_true_iff. split; [apply Z.leb_le | apply Z.ltb_lt]; lia.
Qed.

Lemma edge_length_nonneg points emst i : 0 <= edge_length points emst i.
Proof. unfold edge_length, euclidean_distance. apply sqrt_pos. Qed.

(** Steps 4 of [ultrametric_loss_op]: the gathered endpoints, and the
    squared and plain lengths of the edges. *)
Lemma edge_tensors points emst n c k ce :
  t_shape points = [n; c] -> length (t_data points) = (n * c)%nat ->
  t_shape emst = [k; ce] -> (2 < ce)%nat ->
  valid_edges n emst ->
  exists eu ev diff,
    tf_gather points (endpoints emst 0) = Ok eu /\
    tf_gather points (endpoints emst 1) = Ok ev /\
    tf_subtract eu ev = Ok diff /\
    tf_reduce_sum_1 (tf_square diff)
    = Ok (mkTensor (t_dtype points) [k]
            (map (fun i => edge_length points emst i * edge_length points emst i)
               (seq 0 k))) /\
    tf_sqrt (mkTensor (t_dtype points) [k]
               (map (fun i => edge_length points emst i
                              * edge_length points emst i) (seq 0 k)))
    = mkTensor (t_dtype points) [k]
        (map (edge_length points emst) (seq 0 k)).
Proof.
  intros Hsp Hlp Hse Hce Hv.
  destruct (index_column_run emst k ce 0 Hse) as [_ Hlu]; [lia |].
  destruct (index_column_run emst k ce 1 Hse) as [_ Hlv]; [lia |].
  unfold valid_edges in Hv. apply Forall_app in Hv. destruct Hv as [Hvu Hvv].
  eexists _, _, _.
  split; [apply (tf_gather_run points n c _ Hsp Hvu) |].
  split; [apply (tf_gather_run points n c _ Hsp Hvv) |].
  split.
  { unfold tf_subtract, tf_binop. cbn [t_dtype t_shape t_data].
    rewrite dtype_eqb_refl, Hlu, Hlv, shape_eqb_refl. reflexivity. }
  assert (Hrow : forall l, Forall (fun i => (0 <= i < Z.of_nat n)%Z) l ->
            forall x, In x l ->
              length (row c (t_data points) (Z.to_nat x)) = c).
  { intros l Hl x Hx. rewrite Forall_forall in Hl. specialize (Hl x Hx).
    apply (length_row _ _ _ n); [exact Hlp | lia]. }
  split.
  - unfold tf_reduce_sum_1, tf_square, tf_map. cbn [t_dtype t_shape t_data].
    f_equal. f_equal.
    apply map_ext_in. intros i Hi. apply in_seq in Hi.
    rewrite row_map, row_zip_with.
    rewrite (row_flat_map _ c _ 0%Z i (Hrow _ Hvu)) by lia.
    rewrite (row_flat_map _ c _ 0%Z i (Hrow _ Hvv)) by lia.
    rewrite map_zip_with.
    unfold edge_length. rewrite euclidean_distance_sqr.
    unfold point. rewrite Hsp. reflexivity.
  - unfold tf_sqrt, tf_map. cbn [t_dtype t_shape t_data].
    rewrite map_map. f_equal. apply map_ext. intros i.
    apply sqrt_square. apply edge_length_nonneg.
Qed.

(** ** Runs of [loss_of_points] *)

Lemma bind_lift {A B} (r : result A) (k : A -> M B) w a :
  r = Ok a -> bind (lift r) k w = k a w.
Proof. intros ->. reflexivity. Qed.

Lemma call_get_um_loss_run um_loss emst dist labels alpha r w :
  um_loss emst labels alpha = Ok r ->
  call_get_um_loss um_loss [VF emst; VF dist; VI labels; VF alpha] w
  = (Ok [VF (np_float32 (um_loss_value r));
         VF (astype float32 (um_ratio_pos r));
         VF (astype float32 (um_ratio_neg r));
         VF (np_float32 (um_num_pairs_pos r));
         VF (np_float32 (um_num_pairs_neg r))], w).
Proof.
  intros Hu. unfold call_get_um_loss, get_um_loss, lift. rewrite Hu.
  reflexivity.
Qed.

Section LossOfPoints.

Variable euclidean_mst : ndarray -> result ndarray.
Variable um_loss : ndarray -> tensor Z -> ndarray -> result um_result.
Variables (points emst : ndarray) (labels : tensor Z) (alpha : R).
Variables (n c k ce : nat) (r : um_result).

Hypothesis points_shape : t_shape points = [n; c].
Hypothesis points_size : length (t_data points) = (n * c)%nat.
Hypothesis mst_of_points : euclidean_mst (astype float64 points) = Ok emst.
Hypothesis emst_dtype : t_dtype emst = float64.
Hypothesis emst_shape : t_shape emst = [S k; ce].
Hypothesis emst_columns : (2 < ce)%nat.
Hypothesis emst_valid : valid_edges n emst.
Hypothesis core_result : um_loss emst labels (scalar float32 alpha) = Ok r.

(** Steps 3 and 4: the MST and the edge lengths. *)
Lemma loss_of_points_edges pretrain balance name w :
  exists eu ev d_min d_max,
    loss_of_points euclidean_mst um_loss points labels alpha pretrain balance
      name w
    = let dist := mkTensor (t_dtype points) [S k]
                    (map (edge_length points emst) (seq 0 (S k))) in
      let dist_squared :=
        mkTensor (t_dtype points) [S k]
          (map (fun i => edge_length points emst i * edge_length points emst i)
             (seq 0 (S k))) in
      let alpha_t := scalar float32 alpha in
      (loss <-
         (if pretrain
          then
            outs <- py_func F_get_um_loss (call_get_um_loss um_loss)
                      [VF emst; VF dist; VI labels; VF alpha_t] um_Tout name
                      false ;;
            match outs with
            | [_; VF ratio_pos; VF ratio_neg; VF num_pairs_pos;
               VF num_pairs_neg] =>
                lift (pretrain_loss dist_squared dist alpha_t ratio_pos
                        ratio_neg num_pairs_pos num_pairs_neg balance)
            | _ => raise ValueError
            end
          else
            outs <- py_func_gradient F_get_um_loss (call_get_um_loss um_loss)
                      [VF emst; VF dist; VI labels; VF alpha_t] um_Tout name
                      false ;;
            out <- lift (item outs 0) ;;
            lift (as_float out)) ;;
       ret (mkOut loss emst eu ev dist))
        (mkWorld (logs w ++ [mkLog INFO emst_format [d_min; d_max]])
           (graph w ++ [emst_node None])).
Proof.
  destruct (get_emst_op_run euclidean_mst points None w emst k ce
              mst_of_points emst_dtype emst_shape emst_columns)
    as (d_min & d_max & Hrun).
  destruct (index_column_run emst (S k) ce 0 emst_shape) as [Hiu _]; [lia |].
  destruct (index_column_run emst (S k) ce 1 emst_shape) as [Hiv _]; [lia |].
  destruct (edge_tensors points emst n c (S k) ce points_shape points_size
              emst_shape emst_columns emst_valid)
    as (eu & ev & diff & Hgu & Hgv & Hsub & Hds & Hsqrt).
  exists eu, ev, d_min, d_max.
  unfold loss_of_points.
  rewrite (bind_run _ _ _ _ _ Hrun).
  rewrite (bind_lift _ _ _ _ Hiu), (bind_lift _ _ _ _ Hgu).
  rewrite (bind_lift _ _ _ _ Hiv), (bind_lift _ _ _ _ Hgv).
  rewrite (bind_lift _ _ _ _ Hsub), (bind_lift _ _ _ _ Hds).
  cbv zeta. rewrite Hsqrt. reflexivity.
Qed.

Lemma um_loss_node_run name has_gradient dist w :
  run_node (um_loss_node name has_gradient) (call_get_um_loss um_loss)
    [VF emst; VF dist; VI labels; VF (scalar float32 alpha)] w
  = (Ok [VF (np_float32 (um_loss_value r));
         VF (astype float32 (um_ratio_pos r));
         VF (astype float32 (um_ratio_neg r));
         VF (np_float32 (um_num_pairs_pos r));
         VF (np_float32 (um_num_pairs_neg r))],
     mkWorld (logs w) (graph w ++ [um_loss_node name has_gradient])).
Proof.
  apply run_node_run.
  - apply call_get_um_loss_run. exact core_result.
  - reflexivity.
Qed.

(** The default mode: the loss is the one the core computed. *)
Lemma loss_of_points_default_run balance name w :
  exists eu ev w',
    loss_of_points euclidean_mst um_loss points labels alpha false balance
      name w
    = (Ok (mkOut (np_float32 (um_loss_value r)) emst eu ev
             (mkTensor (t_dtype points) [S k]
                (map (edge_length points emst) (seq 0 (S k))))), w').
Proof.
  destruct (loss_of_points_edges false balance name w)
    as (eu & ev & d_min & d_max & ->).
  exists eu, ev. eexists. cbv zeta. cbv iota.
  unfold py_func_gradient. fold (um_loss_node name true).
  rewrite (bind_run _ _ _ _ _
             (bind_run _ _ _ _ _ (um_loss_node_run name true _ _))).
  reflexivity.
Qed.

Hypothesis points_dtype : t_dtype points = float32.
Hypothesis ratio_pos_shape : t_shape (um_ratio_pos r) = [S k].
Hypothesis ratio_pos_size : length (t_data (um_ratio_pos r)) = S k.
Hypothesis ratio_neg_shape : t_shape (um_ratio_neg r) = [S k].
Hypothesis ratio_neg_size : length (t_data (um_ratio_neg r)) = S k.

(** The pretrain mode: the pair-only loss over the edge lengths. *)
Lemma loss_of_points_pretrain_run balance name w :
  exists eu ev w',
    loss_of_points euclidean_mst um_loss points labels alpha true balance
      name w
    = (Ok (mkOut
             (scalar float32
                (if balance
                 then balanced_loss (S k) alpha (edge_length points emst)
                        (entry (um_ratio_pos r)) (entry (um_ratio_neg r))
                 else unbalanced_loss (S k) alpha (edge_length points emst)
                        (entry (um_ratio_pos r)) (entry (um_ratio_neg r))
                        (um_num_pairs_pos r) (um_num_pairs_neg r)))
             emst eu ev
             (mkTensor float32 [S k]
                (map (edge_length points emst) (seq 0 (S k))))), w').
Proof.
  destruct (loss_of_points_edges true balance name w)
    as (eu & ev & d_min & d_max & ->).
  exists eu, ev. eexists. cbv zeta. cbv iota.
  unfold py_func. fold (um_loss_node name false).
  rewrite points_dtype.
  erewrite bind_run; [reflexivity |].
  rewrite (bind_run _ _ _ _ _ (um_loss_node_run name false _ _)).
  cbv beta iota.
  rewrite (pretrain_loss_run (S k) (edge_length points emst) alpha
             (astype float32 (um_ratio_pos r))
             (astype float32 (um_ratio_neg r)));
    try assumption; reflexivity.
Qed.

End LossOfPoints.

(** ** The pretrain loss *)

Lemma trunc_IZR (z : Z) : trunc (IZR z) = z.
Proof.
  unfold trunc. destruct (Rle_dec 0 (IZR z)) as [_ | _].
  - symmetry. apply Int_part_spec. lra.
  - rewrite <- opp_IZR. rewrite <- (Int_part_spec (IZR (- z)) (- z)%Z) by lra.
    lia.
Qed.

Section Pretrain.

Variable euclidean_mst : ndarray -> result ndarray.
Variable um_loss : ndarray -> tensor Z -> ndarray -> result um_result.
Variables (embedding : ndarray) (gt_seg : tensor Z).
Variables (mask : option (tensor bool)) (alpha : R).
Variables (add_coordinates : bool) (coordinate_scale : scale_arg).
Variables (name : option string) (w w1 : world).
Variables (points emst : ndarray) (labels : tensor Z).
Variables (n c : nat) (r : um_result).

(** A valid input with at least two points: a float32 embedding that
    flattens to [n >= 2] points, whose MST is a float64 array of [n - 1]
    edges [(u, v, distance)] between these points, and for which the core
    returns one ratio per edge. *)
Hypothesis embedding_dtype : t_dtype embedding = float32.
Hypothesis flattened :
  flatten_points embedding gt_seg mask alpha add_coordinates coordinate_scale w
  = (Ok (points, labels), w1).
Hypothesis points_shape : t_shape points = [n; c].
Hypothesis two_points : (2 <= n)%nat.
Hypothesis mst_of_points : euclidean_mst (astype float64 points) = Ok emst.
Hypothesis emst_dtype : t_dtype emst = float64.
Hypothesis emst_shape : t_shape emst = [(n - 1)%nat; 3%nat].
Hypothesis emst_valid : valid_edges n emst.
Hypothesis core_result : um_loss emst labels (scalar float32 alpha) = Ok r.
Hypothesis ratio_pos_shape : t_shape (um_ratio_pos r) = [(n - 1)%nat].
Hypothesis ratio_pos_size : length (t_data (um_ratio_pos r)) = (n - 1)%nat.
Hypothesis ratio_neg_shape : t_shape (um_ratio_neg r) = [(n - 1)%nat].
Hypothesis ratio_neg_size : length (t_data (um_ratio_neg r)) = (n - 1)%nat.

Lemma pretrain_run (balance : bool) :
  exists out w',
    ultrametric_loss_op euclidean_mst um_loss embedding gt_seg mask alpha
      add_coordinates coordinate_scale true balance name w = (Ok out, w') /\
    out_loss out
    = scalar float32
        (if balance
         then balanced_loss (n - 1) alpha (edge_length points emst)
                (entry (um_ratio_pos r)) (entry (um_ratio_neg r))
         else unbalanced_loss (n - 1) alpha (edge_length points emst)
                (entry (um_ratio_pos r)) (entry (um_ratio_neg r))
                (um_num_pairs_pos r) (um_num_pairs_neg r)) /\
    out_emst out = emst /\
    t_data (out_dist out) = map (edge_length points emst) (seq 0 (n - 1)).
Proof.
  destruct (flatten_points_ok _ _ _ _ _ _ _ _ _ _ flattened)
    as (n' & c' & Hsp & Hlp & _ & _ & Hdp & _).
  rewrite points_shape in Hsp. injection Hsp as <- <-.
  rewrite embedding_dtype in Hdp.
  assert (Hn : (n - 1)%nat = S (n - 2)) by lia.
  rewrite Hn in *.
  destruct (loss_of_points_pretrain_run euclidean_mst um_loss points emst
              labels alpha n c (n - 2) 3 r points_shape Hlp mst_of_points
              emst_dtype emst_shape ltac:(lia) emst_valid core_result Hdp
              ratio_pos_shape ratio_pos_size ratio_neg_shape ratio_neg_size
              balance name w1)
    as (eu & ev & w' & Hrun).
  eexists _, w'. split.
  - unfold ultrametric_loss_op. rewrite (bind_run _ _ _ _ _ flattened).
    exact Hrun.
  - repeat split; reflexivity.
Qed.

End Pretrain.

(** C1. In pretrain mode without balancing, on a valid input with at least
    two points, the op returns the loss
    [(sum_i d_i^2 * ratio_pos_i * num_pairs_pos
      + sum_i max(0, alpha - d_i)^2 * ratio_neg_i * num_pairs_neg)
     / (num_pairs_pos + num_pairs_neg)],
    where [d_i] is the Euclidean length of MST edge [i] and the ratios and
    pair counts are those of the core. *)
Theorem pretrain_unbalanced_loss :
  forall euclidean_mst um_loss embedding gt_seg mask alpha add_coordinates
         coordinate_scale name w w1 points emst labels n c r,
    t_dtype embedding = float32 ->
    flatten_points embedding gt_seg mask alpha add_coordinates
      coordinate_scale w = (Ok (points, labels), w1) ->
    t_shape points = [n; c] ->
    (2 <= n)%nat ->
    euclidean_mst (astype float64 points) = Ok emst ->
    t_dtype emst = float64 ->
    t_shape emst = [(n - 1)%nat; 3%nat] ->
    valid_edges n emst ->
    um_loss emst labels (scalar float32 alpha) = Ok r ->
    t_shape (um_ratio_pos r) = [(n - 1)%nat] ->
    length (t_data (um_ratio_pos r)) = (n - 1)%nat ->
    t_shape (um_ratio_neg r) = [(n - 1)%nat] ->
    length (t_data (um_ratio_neg r)) = (n - 1)%nat ->
    exists out w',
      ultrametric_loss_op euclidean_mst um_loss embedding gt_seg mask alpha
        add_coordinates coordinate_scale true false name w = (Ok out, w') /\
      out_loss out
      = scalar float32
          ((sum_edges (n - 1)
              (fun i => edge_length points emst i * edge_length points emst i
                        * entry (um_ratio_pos r) i)
            * um_num_pairs_pos r
            + sum_edges (n - 1)
                (fun i => Rmax 0 (alpha - edge_length points emst i)
                          * Rmax 0 (alpha - edge_length points emst i)
                          * entry (um_ratio_neg r) i)
              * um_num_pairs_neg r)
           / (um_num_pairs_pos r + um_num_pairs_neg r)) /\
      out_emst out = emst /\
      t_data (out_dist out) = map (edge_length points emst) (seq 0 (n - 1)).
Proof.
  intros em um embedding gt_seg mask alpha ac cs name w w1 points emst labels
    n c r H1 H2 H3 H4 H5 H6 H7 H8 H9 H10 H11 H12 H13.
  exact (pretrain_run em um embedding gt_seg mask alpha ac cs name w w1 points
           emst labels n c r H1 H2 H3 H4 H5 H6 H7 H8 H9 H10 H11 H12 H13 false).
Qed.

(** C2. In pretrain mode with balancing, on a valid input with at least two
    points, the op returns the plain sum
    [sum_i d_i^2 * ratio_pos_i + sum_i max(0, alpha - d_i)^2 * ratio_neg_i],
    with no division by the pair counts. *)
Theorem pretrain_balanced_loss :
  forall euclidean_mst um_loss embedding gt_seg mask alpha add_coordinates
         coordinate_scale name w w1 points emst labels n c r,
    t_dtype embedding = float32 ->
    flatten_points embedding gt_seg mask alpha add_coordinates
      coordinate_scale w = (Ok (points, labels), w1) ->
    t_shape points = [n; c] ->
    (2 <= n)%nat ->
    euclidean_mst (astype float64 points) = Ok emst ->
    t_dtype emst = float64 ->
    t_shape emst = [(n - 1)%nat; 3%nat] ->
    valid_edges n emst ->
    um_loss emst labels (scalar float32 alpha) = Ok r ->
    t_shape (um_ratio_pos r) = [(n - 1)%nat] ->
    length (t_data (um_ratio_pos r)) = (n - 1)%nat ->
    t_shape (um_ratio_neg r) = [(n - 1)%nat] ->
    length (t_data (um_ratio_neg r)) = (n - 1)%nat ->
    exists out w',
      ultrametric_loss_op euclidean_mst um_loss embedding gt_seg mask alpha
        add_coordinates coordinate_scale true true name w = (Ok out, w') /\
      out_loss out
      = scalar float32
          (sum_edges (n - 1)
             (fun i => edge_length points emst i * edge_length points emst i
                       * entry (um_ratio_pos r) i)
           + sum_edges (n - 1)
               (fun i => Rmax 0 (alpha - edge_length points emst i)
                         * Rmax 0 (alpha - edge_length points emst i)
                         * entry (um_ratio_neg r) i)) /\
      out_emst out = emst /\
      t_data (out_dist out) = map (edge_length points emst) (seq 0 (n - 1)).
Proof.
  intros em um embedding gt_seg mask alpha ac cs name w w1 points emst labels
    n c r H1 H2 H3 H4 H5 H6 H7 H8 H9 H10 H11 H12 H13.
  exact (pretrain_run em um embedding gt_seg mask alpha ac cs name w w1 points
           emst labels n c r H1 H2 H3 H4 H5 H6 H7 H8 H9 H10 H11 H12 H13 true).
Qed.

(** The example: two points at distance [1], with margin [2]. *)
Lemma ex_valid_edges : valid_edges 2 ex_emst.
Proof.
  unfold valid_edges, endpoints, index_column, column, ex_emst. simpl.
  rewrite (trunc_IZR 0), (trunc_IZR 1).
  repeat constructor; lia.
Qed.

Lemma ex_edge_length : edge_length ex_points ex_emst 0 = 1.
Proof.
  unfold edge_length, endpoints, index_column, column, ex_emst. simpl.
  rewrite (trunc_IZR 0), (trunc_IZR 1).
  unfold point, euclidean_distance, row, ex_points. simpl.
  replace ((0 - 1) * (0 - 1) + 0) with 1 by lra. apply sqrt_1.
Qed.

Example ex_unbalanced_loss_value :
  unbalanced_loss 1 2 (edge_length ex_points ex_emst)
    (entry (um_ratio_pos ex_um_result)) (entry (um_ratio_neg ex_um_result))
    (um_num_pairs_pos ex_um_result) (um_num_pairs_neg ex_um_result) = 1.
Proof.
  unfold unbalanced_loss, sum_loss_pos, sum_loss_neg, sum_edges, hinge, entry.
  simpl. rewrite ex_edge_length.
  replace (2 - 1) with 1 by lra.
  rewrite (Rmax_right 0 1) by lra. field.
Qed.

Example ex_balanced_loss_value :
  balanced_loss 1 2 (edge_length ex_points ex_emst)
    (entry (um_ratio_pos ex_um_result)) (entry (um_ratio_neg ex_um_result))
  = 1.
Proof.
  unfold balanced_loss, sum_loss_pos, sum_loss_neg, sum_edges, hinge, entry.
  simpl. rewrite ex_edge_length.
  replace (2 - 1) with 1 by lra.
  rewrite (Rmax_right 0 1) by lra. lra.
Qed.

Lemma pretrain_unbalanced_loss_witness :
  exists out w',
    ultrametric_loss_op ex_euclidean_mst ex_um_loss ex_embedding ex_gt_seg
      None 2 false (ScaleFloat 1) true false None w0 = (Ok out, w') /\
    out_loss out
    = scalar float32
        (unbalanced_loss 1 2 (edge_length ex_points ex_emst)
           (entry (um_ratio_pos ex_um_result))
           (entry (um_ratio_neg ex_um_result))
           (um_num_pairs_pos ex_um_result) (um_num_pairs_neg ex_um_result)) /\
    out_emst out = ex_emst /\
    t_data (out_dist out) = map (edge_length ex_points ex_emst) (seq 0 1).
Proof.
  apply (pretrain_unbalanced_loss ex_euclidean_mst ex_um_loss ex_embedding
           ex_gt_seg None 2 false (ScaleFloat 1) None w0 w0 ex_points ex_emst
           ex_labels 2%nat 1%nat ex_um_result).
  - reflexivity.
  - reflexivity.
  - reflexivity.
  - apply le_n.
  - reflexivity.
  - reflexivity.
  - reflexivity.
  - exact ex_valid_edges.
  - reflexivity.
  - reflexivity.
  - reflexivity.
  - reflexivity.
  - reflexivity.
Defined.

Lemma pretrain_balanced_loss_witness :
  exists out w',
    ultrametric_loss_op ex_euclidean_mst ex_um_loss ex_embedding ex_gt_seg
      None 2 false (ScaleFloat 1) true true None w0 = (Ok out, w') /\
    out_loss out
    = scalar float32
        (balanced_loss 1 2 (edge_length ex_points ex_emst)
           (entry (um_ratio_pos ex_um_result))
           (entry (um_ratio_neg ex_um_result))) /\
    out_emst out = ex_emst /\
    t_data (out_dist out) = map (edge_length ex_points ex_emst) (seq 0 1).
Proof.
  apply (pretrain_balanced_loss ex_euclidean_mst ex_um_loss ex_embedding
           ex_gt_seg None 2 false (ScaleFloat 1) None w0 w0 ex_points ex_emst
           ex_labels 2%nat 1%nat ex_um_result).
  - reflexivity.
  - reflexivity.
  - reflexivity.
  - apply le_n.
  - reflexivity.
  - reflexivity.
  - reflexivity.
  - exact ex_valid_edges.
  - reflexivity.
  - reflexivity.
  - reflexivity.
  - reflexivity.
  - reflexivity.
Defined.

(** ** Inputs the wrappers do not validate *)

Lemma np_arange_run (n : nat) (s : R) :
  s <> 0 -> np_arange n s = Ok (map (fun i => INR i * s) (seq 0 n)).
Proof.
  intros Hs. unfold np_arange. destruct (Req_dec_T s 0); [contradiction |].
  reflexivity.
Qed.

Lemma augment_run embedding k depth height width alpha s w :
  t_dtype embedding = float32 ->
  t_shape embedding = [k; depth; height; width] ->
  s <> 0 ->
  exists e' w', augment embedding k depth height width alpha (ScaleFloat s) w
                = (Ok e', w').
Proof.
  intros Hd Hs Hnz. unfold augment, scale_tuple, item, tf_meshgrid_ij.
  cbn [nth_error].
  rewrite (bind_lift _ _ _ s eq_refl).
  rewrite (bind_lift _ _ _ _ (np_arange_run depth s Hnz)).
  rewrite (bind_lift _ _ _ s eq_refl).
  rewrite (bind_lift _ _ _ _ (np_arange_run height s Hnz)).
  rewrite (bind_lift _ _ _ s eq_refl).
  rewrite (bind_lift _ _ _ _ (np_arange_run width s Hnz)).
  unfold tf_concat_0. cbn [t_dtype t_shape t_data].
  rewrite Hd, Hs. cbn [dtype_eqb negb]. rewrite shape_eqb_refl.
  rewrite (bind_lift _ _ _ _ eq_refl).
  cbn [np_max np_min].
  rewrite (bind_lift _ _ _ _ eq_refl), (bind_lift _ _ _ _ eq_refl).
  destruct (Rlt_dec _ _); eexists _, _; reflexivity.
Qed.

Lemma tf_reshape_rows_run {A} (t : tensor A) n c :
  length (t_data t) = (n * c)%nat -> n <> 0%nat ->
  tf_reshape_rows t n = Ok (mkTensor (t_dtype t) [n; c] (t_data t)).
Proof.
  intros Hlen Hn. unfold tf_reshape_rows.
  apply Nat.eqb_neq in Hn. rewrite Hn. apply Nat.eqb_neq in Hn.
  rewrite Hlen, Nat.mul_comm, Nat.Div0.mod_mul, Nat.div_mul by exact Hn.
  reflexivity.
Qed.

(** Without a mask, flattening succeeds on a volume that is not empty, with
    one label per voxel; coordinates can be added to a float32 embedding
    with a non-zero scalar scale. *)
Lemma flatten_points_run embedding gt_seg alpha add_coordinates s w
    k depth height width :
  t_shape embedding = [k; depth; height; width] ->
  (depth * width * height)%nat <> 0%nat ->
  length (t_data gt_seg) = (depth * width * height)%nat ->
  (add_coordinates = true -> t_dtype embedding = float32 /\ s <> 0) ->
  exists points labels w',
    flatten_points embedding gt_seg None alpha add_coordinates (ScaleFloat s) w
    = (Ok (points, labels), w').
Proof.
  intros Hs HD Hg Hac. unfold flatten_points. rewrite Hs.
  assert (H1 : exists e1 w1 c,
             (if add_coordinates
              then augment embedding k depth height width alpha (ScaleFloat s)
              else ret embedding) w = (Ok e1, w1) /\
             t_shape e1 = [c; depth; height; width]).
  { destruct add_coordinates.
    - destruct (Hac eq_refl) as [Hd Hnz].
      destruct (augment_run embedding k depth height width alpha s w Hd Hs Hnz)
        as (e1 & w1 & Hrun).
      exists e1, w1. eexists. split; [exact Hrun |].
      apply (augment_ok _ _ _ _ _ _ _ _ _ _ Hrun Hs).
    - exists embedding, w, k. split; [reflexivity | exact Hs]. }
  destruct H1 as (e1 & w1 & c & Hrun & Hs1).
  rewrite (bind_run _ _ _ _ _ Hrun).
  destruct (tf_transpose_1230_ok e1 c depth height width Hs1)
    as (t & Ht & _ & _ & Hlt).
  rewrite (bind_lift _ _ _ _ Ht).
  rewrite (bind_lift _ _ _ _
             (tf_reshape_rows_run t (depth * width * height) c
                ltac:(rewrite Hlt; lia) HD)).
  unfold tf_reshape_flat. rewrite Hg, Nat.eqb_refl.
  rewrite (bind_lift _ _ _ _ eq_refl).
  eexists _, _, _. reflexivity.
Qed.


(** With no edge the op fails in the diagnostic of [get_emst]. *)
Lemma no_edges_raise euclidean_mst um_loss embedding gt_seg mask alpha
    add_coordinates cs pretrain balance name w points labels w1 emst ce :
  flatten_points embedding gt_seg mask alpha add_coordinates cs w
    = (Ok (points, labels), w1) ->
  euclidean_mst (astype float64 points) = Ok emst ->
  t_shape emst = [0%nat; ce] -> (2 < ce)%nat ->
  fst (ultrametric_loss_op euclidean_mst um_loss embedding gt_seg mask alpha
         add_coordinates cs pretrain balance name w)
  = Raise ValueError.
Proof.
  intros Hf Hm Hs Hce. unfold ultrametric_loss_op.
  rewrite (bind_run _ _ _ _ _ Hf). cbn [fst snd].
  unfold loss_of_points, get_emst_op, py_func, run_node, call_get_emst.
  set (w2 := mkWorld (logs w1) (graph w1 ++ [mkNode F_get_emst [float64] None false false])).
  assert (H : get_emst euclidean_mst points w2 = (Raise ValueError, w2))
    by (apply (get_emst_no_edges _ _ _ emst ce); assumption).
  unfold bind, add_node. fold w2. rewrite H. reflexivity.
Qed.

(** C3. On a single point with the default arguments the op raises
    ValueError: the MST has no edge and [get_emst] takes the minimum of an
    empty column, although the core would return loss [0] with an empty
    gradient. *)
Theorem one_point_input_raises :
  fst (ultrametric_loss_op one_point_euclidean_mst degenerate_um_loss
         one_point_embedding one_point_gt_seg None (1 / 10) true
         (ScaleFloat 1) false false None w0)
  = Raise ValueError.
Proof.
  destruct (flatten_points_run one_point_embedding one_point_gt_seg (1 / 10)
              true 1 w0 1 1 1 1) as (points & labels & w1 & Hf).
  - reflexivity.
  - discriminate.
  - reflexivity.
  - intros _. split; [reflexivity | lra].
  - apply (no_edges_raise _ _ _ _ _ _ _ _ _ _ _ _ points labels w1 no_edges 3
             Hf); [reflexivity | reflexivity | lia].
Qed.

Section Unvalidated.

Variable euclidean_mst : ndarray -> result ndarray.
Variable um_loss : ndarray -> tensor Z -> ndarray -> result um_result.
Variables (embedding : ndarray) (gt_seg : tensor Z).
Variables (mask : option (tensor bool)) (alpha : R).
Variables (add_coordinates : bool) (coordinate_scale : scale_arg).
Variables (balance : bool) (name : option string) (w w1 : world).
Variables (points emst : ndarray) (labels : tensor Z).
Variables (n c k ce : nat).

Hypothesis flattened :
  flatten_points embedding gt_seg mask alpha add_coordinates coordinate_scale w
  = (Ok (points, labels), w1).
Hypothesis points_shape : t_shape points = [n; c].
Hypothesis mst_of_points : euclidean_mst (astype float64 points) = Ok emst.
Hypothesis emst_dtype : t_dtype emst = float64.
Hypothesis emst_shape : t_shape emst = [S k; ce].
Hypothesis emst_columns : (2 < ce)%nat.
Hypothesis emst_valid : valid_edges n emst.

Lemma points_size : length (t_data points) = (n * c)%nat.
Proof.
  destruct (flatten_points_ok _ _ _ _ _ _ _ _ _ _ flattened)
    as (n' & c' & Hsp & Hlp & _).
  rewrite points_shape in Hsp. injection Hsp as <- <-. exact Hlp.
Qed.

(** In the default mode the op returns the loss of the core, for every
    [alpha] the core accepts. *)
Lemma default_mode_run (r : um_result) :
  um_loss emst labels (scalar float32 alpha) = Ok r ->
  exists out w',
    ultrametric_loss_op euclidean_mst um_loss embedding gt_seg mask alpha
      add_coordinates coordinate_scale false balance name w = (Ok out, w') /\
    out_loss out = np_float32 (um_loss_value r).
Proof.
  intros Hr.
  destruct (loss_of_points_default_run euclidean_mst um_loss points emst
              labels alpha n c k ce r points_shape points_size mst_of_points
              emst_dtype emst_shape emst_columns emst_valid Hr balance name w1)
    as (eu & ev & w' & Hrun).
  eexists _, w'. split.
  - unfold ultrametric_loss_op. rewrite (bind_run _ _ _ _ _ flattened).
    exact Hrun.
  - reflexivity.
Qed.

End Unvalidated.

Lemma strict_um_loss_rejects mst gt_seg :
  strict_um_loss mst gt_seg (scalar float32 (-1)) = Raise CoreError.
Proof.
  unfold strict_um_loss, entry, scalar. simpl.
  destruct (Rlt_dec (-1) 0) as [_ | H]; [reflexivity | exfalso; lra].
Qed.

(** * Further properties of the wrappers *)

(** ** The diagnostic of [get_emst] *)

Lemma list_min_spec (x : R) (l : list R) :
  In (list_min x l) (x :: l) /\
  Forall (fun y => list_min x l <= y) (x :: l).
Proof.
  revert x. induction l as [| y l IH]; intros x; simpl.
  - split; [left; reflexivity | repeat constructor; apply Rle_refl].
  - destruct (IH (Rmin x y)) as [Hin Hall]. split.
    + destruct Hin as [Hin | Hin]; [| right; right; exact Hin].
      rewrite <- Hin. unfold Rmin. destruct (Rle_dec x y); auto.
    + inversion Hall as [| ? ? Hhd Htl]; subst.
      constructor; [| constructor; [| exact Htl]].
      * eapply Rle_trans; [exact Hhd | apply Rmin_l].
      * eapply Rle_trans; [exact Hhd | apply Rmin_r].
Qed.

Lemma list_max_spec (x : R) (l : list R) :
  In (list_max x l) (x :: l) /\
  Forall (fun y => y <= list_max x l) (x :: l).
Proof.
  revert x. induction l as [| y l IH]; intros x; simpl.
  - split; [left; reflexivity | repeat constructor; apply Rle_refl].
  - destruct (IH (Rmax x y)) as [Hin Hall]. split.
    + destruct Hin as [Hin | Hin]; [| right; right; exact Hin].
      rewrite <- Hin. unfold Rmax. destruct (Rle_dec x y); auto.
    + inversion Hall as [| ? ? Hhd Htl]; subst.
      constructor; [| constructor; [| exact Htl]].
      * eapply Rle_trans; [apply Rmax_l | exact Hhd].
      * eapply Rle_trans; [apply Rmax_r | exact Hhd].
Qed.

(** X1. When the core returns at least one edge, [get_emst] returns the
    edge array unchanged and logs exactly one record, whose two arguments are
    the smallest and the largest value of the distance column: both occur in
    the column and bound every distance. *)
Theorem get_emst_logs_distance_range :
  forall euclidean_mst embedding w emst n c,
    euclidean_mst (astype float64 embedding) = Ok emst ->
    t_shape emst = [S n; c] ->
    (2 < c)%nat ->
    exists col d_min d_max,
      column 0 emst 2 = Ok col /\
      get_emst euclidean_mst embedding w
      = (Ok emst,
         mkWorld (logs w ++ [mkLog INFO emst_format [d_min; d_max]])
           (graph w)) /\
      In d_min col /\ In d_max col /\
      Forall (fun d => d_min <= d <= d_max) col.
Proof.
  intros em embedding w emst n c Hm Hs Hc.
  destruct (column_nonempty 0 emst n c 2 Hs Hc) as (x & l & Hcol).
  exists (x :: l), (list_min x l), (list_max x l).
  destruct (list_min_spec x l) as [Hmin_in Hmin].
  destruct (list_max_spec x l) as [Hmax_in Hmax].
  split; [exact Hcol |]. split.
  - unfold get_emst, bind, lift. rewrite Hm, Hcol. reflexivity.
  - split; [exact Hmin_in |]. split; [exact Hmax_in |].
    rewrite Forall_forall in *. intros d Hd. split; auto.
Qed.

Lemma get_emst_logs_distance_range_witness :
  exists col d_min d_max,
    column 0 ex_emst 2 = Ok col /\
    get_emst ex_euclidean_mst ex_points w0
    = (Ok ex_emst,
       mkWorld (logs w0 ++ [mkLog INFO emst_format [d_min; d_max]])
         (graph w0)) /\
    In d_min col /\ In d_max col /\
    Forall (fun d => d_min <= d <= d_max) col.
Proof.
  apply (get_emst_logs_distance_range ex_euclidean_mst ex_points w0 ex_emst
           0%nat 3%nat).
  - reflexivity.
  - reflexivity.
  - apply le_n.
Defined.

(** X2. A failing [get_emst] leaves no trace: the world is unchanged, nothing
    is logged.  The error is the one of the core, or IndexError for an edge
    array that is not a matrix of at least three columns, or ValueError for
    an edge array without rows. *)
Theorem get_emst_failure_leaves_no_trace :
  forall euclidean_mst embedding w e w',
    get_emst euclidean_mst embedding w = (Raise e, w') ->
    w' = w /\
    (euclidean_mst (astype float64 embedding) = Raise e \/
     exists emst,
       euclidean_mst (astype float64 embedding) = Ok emst /\
       ((e = IndexError /\
         forall n c, t_shape emst = [n; c] -> (c <= 2)%nat) \/
        (e = ValueError /\ exists c, t_shape emst = [0%nat; c]))).
Proof.
  intros em embedding w e w'. unfold get_emst, bind, lift.
  destruct (em (astype float64 embedding)) as [emst | e0] eqn:Hm.
  - assert (Hbad : (forall n c, t_shape emst = [n; c] -> (c <= 2)%nat) ->
                   (Raise IndexError, w) = (@Raise ndarray e, w') ->
                   w' = w /\
                   (Ok emst = Raise e \/
                    exists emst0,
                      Ok emst = Ok emst0 /\
                      ((e = IndexError /\
                        forall n c, t_shape emst0 = [n; c] -> (c <= 2)%nat) \/
                       (e = ValueError /\
                        exists c, t_shape emst0 = [0%nat; c])))).
    { intros Hshape H. inversion H; subst. split; [reflexivity |].
      right. exists emst. split; [reflexivity |]. left.
      split; [reflexivity | exact Hshape]. }
    unfold column.
    destruct (t_shape emst) as [| n [| c [| ? ?]]] eqn:Hs;
      try (apply Hbad; intros n' c' Hs'; discriminate Hs').
    destruct (2 <? c)%nat eqn:Hc.
    + destruct n as [| n]; simpl.
      * intros H. inversion H; subst. split; [reflexivity |].
        right. exists emst. split; [reflexivity |]. right.
        split; [reflexivity |]. exists c. exact Hs.
      * unfold logger_info, ret. intros H. discriminate H.
    + apply Hbad. intros n' c' Hs'. inversion Hs'; subst.
      apply Nat.ltb_ge in Hc. lia.
  - intros H. inversion H; subst. split; [reflexivity |]. left. reflexivity.
Qed.

Lemma get_emst_failure_leaves_no_trace_witness :
  w0 = w0 /\
  (one_point_euclidean_mst (astype float64 ex_points) = Raise ValueError \/
   exists emst,
     one_point_euclidean_mst (astype float64 ex_points) = Ok emst /\
     ((ValueError = IndexError /\
       forall n c, t_shape emst = [n; c] -> (c <= 2)%nat) \/
      (ValueError = ValueError /\ exists c, t_shape emst = [0%nat; c]))).
Proof.
  apply (get_emst_failure_leaves_no_trace one_point_euclidean_mst ex_points
           w0 ValueError w0).
  reflexivity.
Defined.

(** X3. If the MST of the points has no edge then [ultrametric_loss_op]
    raises ValueError: the diagnostic of [get_emst] takes the minimum of an
    empty column, and nothing is logged for the MST.  This holds in the
    default mode for every embedding, and in the pretrain mode for a float32
    embedding, the only one for which the pretrain branch can be built. *)
Theorem no_edge_mst_raises_value_error :
  forall euclidean_mst um_loss embedding gt_seg mask alpha add_coordinates
         coordinate_scale pretrain pretrain_balance name w points labels w1
         emst c,
    flatten_points embedding gt_seg mask alpha add_coordinates
      coordinate_scale w = (Ok (points, labels), w1) ->
    euclidean_mst (astype float64 points) = Ok emst ->
    t_shape emst = [0%nat; c] ->
    (2 < c)%nat ->
    (pretrain = true -> t_dtype embedding = float32) ->
    exists w',
      ultrametric_loss_op euclidean_mst um_loss embedding gt_seg mask alpha
        add_coordinates coordinate_scale pretrain pretrain_balance name w
      = (Raise ValueError, w') /\
      logs w' = logs w1.
Proof.
  intros em um embedding gt_seg mask alpha ac cs pretrain balance name w
    points labels w1 emst c Hf Hm Hs Hc _.
  unfold ultrametric_loss_op. rewrite (bind_run _ _ _ _ _ Hf). cbn [fst snd].
  unfold loss_of_points, get_emst_op, py_func, run_node, call_get_emst.
  fold (emst_node None).
  set (w2 := mkWorld (logs w1) (graph w1 ++ [emst_node None])).
  assert (H : get_emst em points w2 = (Raise ValueError, w2))
    by (apply (get_emst_no_edges _ _ _ emst c); assumption).
  exists w2. unfold bind, add_node. fold w2. rewrite H.
  split; reflexivity.
Qed.

Lemma no_edge_mst_raises_value_error_witness :
  exists w',
    ultrametric_loss_op one_point_euclidean_mst degenerate_um_loss
      ex_embedding ex_gt_seg (Some ex_mask) 1 false (ScaleFloat 1) true false
      None w0
    = (Raise ValueError, w') /\
    logs w' = logs w0.
Proof.
  apply (no_edge_mst_raises_value_error one_point_euclidean_mst
           degenerate_um_loss ex_embedding ex_gt_seg (Some ex_mask) 1 false
           (ScaleFloat 1) true false None w0
           (mkTensor float32 [1; 1]%nat [0]) (mkTensor int64 [1]%nat [1%Z])
           w0 no_edges 3%nat).
  - reflexivity.
  - reflexivity.
  - reflexivity.
  - apply le_n.
  - intros _. reflexivity.
Defined.

(** X4. The node of [get_emst_op] declares a float64 output: an edge array
    of any other precision is rejected with InvalidArgumentError, after
    [get_emst] has run and logged its diagnostic. *)
Theorem get_emst_op_rejects_other_precision :
  forall euclidean_mst embedding name w emst n c,
    euclidean_mst (astype float64 embedding) = Ok emst ->
    t_shape emst = [S n; c] ->
    (2 < c)%nat ->
    t_dtype emst <> float64 ->
    exists d_min d_max,
      get_emst_op euclidean_mst embedding name w
      = (Raise InvalidArgumentError,
         mkWorld (logs w ++ [mkLog INFO emst_format [d_min; d_max]])
           (graph w ++ [emst_node name])).
Proof.
  intros em embedding name w emst n c Hm Hs Hc Hd.
  set (w1 := mkWorld (logs w) (graph w ++ [emst_node name])).
  destruct (get_emst_run em embedding w1 emst n c Hm Hs Hc)
    as (d_min & d_max & Hrun).
  exists d_min, d_max.
  unfold get_emst_op, py_func, run_node, call_get_emst.
  fold (emst_node name).
  unfold bind at 1. unfold bind at 1. unfold add_node at 1. fold w1.
  unfold bind at 1. unfold bind at 1. rewrite Hrun.
  unfold ret at 1. cbn [check_dtypes value_dtype node_Tout emst_node].
  destruct (t_dtype emst); try reflexivity. contradiction Hd. reflexivity.
Qed.

Lemma get_emst_op_rejects_other_precision_witness :
  exists d_min d_max,
    get_emst_op (fun _ => Ok (astype float32 ex_emst)) ex_points None w0
    = (Raise InvalidArgumentError,
       mkWorld (logs w0 ++ [mkLog INFO emst_format [d_min; d_max]])
         (graph w0 ++ [emst_node None])).
Proof.
  apply (get_emst_op_rejects_other_precision
           (fun _ => Ok (astype float32 ex_emst)) ex_points None w0
           (astype float32 ex_emst) 0%nat 3%nat).
  - reflexivity.
  - reflexivity.
  - apply le_n.
  - discriminate.
Defined.

(** ** The loss node and the backward pass *)

(** X5. Whatever precision the core computes in, [get_um_loss] hands on five
    float32 values, so the loss node never fails its dtype check: on the
    inputs [(emst, dist, gt_seg, alpha)] it returns five float32 values
    whenever the core returns, and fails only with the error of the core. *)
Theorem loss_node_fails_only_with_core :
  forall um_loss mst dist gt_seg alpha name has_gradient w,
    (forall r,
        um_loss mst gt_seg alpha = Ok r ->
        exists outs,
          fst (run_node (um_loss_node name has_gradient)
                 (call_get_um_loss um_loss)
                 [VF mst; VF dist; VI gt_seg; VF alpha] w) = Ok outs /\
          length outs = 5%nat /\
          Forall (fun v => value_dtype v = float32) outs /\
          nth_error outs 1 = Some (VF (astype float32 (um_ratio_pos r))) /\
          nth_error outs 2 = Some (VF (astype float32 (um_ratio_neg r)))) /\
    (forall e,
        fst (run_node (um_loss_node name has_gradient)
               (call_get_um_loss um_loss)
               [VF mst; VF dist; VI gt_seg; VF alpha] w) = Raise e ->
        um_loss mst gt_seg alpha = Raise e).
Proof.
  intros um mst dist gt_seg alpha name grad w.
  unfold run_node, bind, add_node, call_get_um_loss, get_um_loss, lift.
  destruct (um mst gt_seg alpha) as [r | e0]; simpl; split.
  - intros r' Hr. inversion Hr; subst r'. eexists. split; [reflexivity |].
    split; [reflexivity |]. split; [| split; reflexivity].
    repeat constructor.
  - intros e H. discriminate H.
  - intros r Hr. discriminate Hr.
  - intros e H. inversion H. reflexivity.
Qed.

Lemma loss_node_fails_only_with_core_witness :
  strict_um_loss ex_emst ex_labels (scalar float32 (-1)) = Raise CoreError.
Proof.
  apply (proj2 (loss_node_fails_only_with_core strict_um_loss ex_emst
                  ex_points ex_labels (scalar float32 (-1)) None true w0)
           CoreError).
  unfold run_node, bind, add_node, call_get_um_loss, get_um_loss, lift.
  rewrite strict_um_loss_rejects. reflexivity.
Defined.

(** X6. The backward pass calls [get_um_loss_gradient] with the inputs of
    the node as positional arguments: on a node that does not have exactly
    four inputs it raises TypeError, after its own node has been created. *)
Theorem gradient_op_needs_four_inputs :
  forall um_loss op dloss d1 d2 d3 d4 w,
    length (op_inputs op) <> 4%nat ->
    get_um_loss_gradient_op um_loss op dloss d1 d2 d3 d4 w
    = (Raise TypeError, mkWorld (logs w) (graph w ++ [gradient_node])).
Proof.
  intros um [inputs] dloss d1 d2 d3 d4 w Hlen. simpl in Hlen.
  unfold get_um_loss_gradient_op, py_func, run_node, bind, add_node,
    call_get_um_loss_gradient, raise, lift.
  destruct inputs as [| [a | a | a] [| [b | b | b] [| [c | c | c]
    [| [d | d | d] [| e inputs]]]]];
    simpl in Hlen; try reflexivity; try (exfalso; apply Hlen; reflexivity).
Qed.

Lemma gradient_op_needs_four_inputs_witness :
  get_um_loss_gradient_op ex_um_loss (mkOp [VF ex_emst; VI ex_labels])
    (scalar float32 1) None None None None w0
  = (Raise TypeError, mkWorld (logs w0) (graph w0 ++ [gradient_node])).
Proof.
  apply (gradient_op_needs_four_inputs ex_um_loss
           (mkOp [VF ex_emst; VI ex_labels]) (scalar float32 1)
           None None None None w0).
  discriminate.
Defined.

(** X7. For a scalar incoming gradient of the loss, the backward pass
    returns for [dist] a float32 vector of the shape of the core gradient,
    each entry multiplied by that scalar, and creates one stateless node. *)
Theorem gradient_op_scales_by_scalar :
  forall um_loss mst dist gt_seg alpha r m x d1 d2 d3 d4 w,
    um_loss mst gt_seg alpha = Ok r ->
    t_shape (um_gradient r) = [m] ->
    get_um_loss_gradient_op um_loss
      (mkOp [VF mst; VF dist; VI gt_seg; VF alpha]) (scalar float32 x)
      d1 d2 d3 d4 w
    = (Ok (None,
           Some (mkTensor float32 [m]
                   (map (fun g => g * x) (t_data (um_gradient r)))),
           None, None),
       mkWorld (logs w) (graph w ++ [gradient_node])).
Proof.
  intros um mst dist gt_seg alpha r m x d1 d2 d3 d4 w Hr Hs.
  rewrite get_um_loss_gradient_op_run.
  unfold get_um_loss_gradient. rewrite Hr. simpl.
  unfold tf_multiply, tf_binop, astype, scalar. simpl. rewrite Hs.
  replace (shape_eqb [m] []) with false by reflexivity.
  destruct m as [| [| m]];
    destruct (t_data (um_gradient r)) as [| g0 [| g1 l]]; reflexivity.
Qed.

Lemma gradient_op_scales_by_scalar_witness :
  get_um_loss_gradient_op ex_um_loss
    (mkOp [VF ex_emst; VF ex_points; VI ex_labels; VF (scalar float32 1)])
    (scalar float32 3) None None None None w0
  = (Ok (None,
         Some (mkTensor float32 [1%nat]
                 (map (fun g => g * 3) (t_data (um_gradient ex_um_result)))),
         None, None),
     mkWorld (logs w0) (graph w0 ++ [gradient_node])).
Proof.
  apply (gradient_op_scales_by_scalar ex_um_loss ex_emst ex_points ex_labels
           (scalar float32 1) ex_um_result 1%nat 3 None None None None w0).
  - reflexivity.
  - reflexivity.
Defined.

(** ** Steps 1 and 2: what is rejected *)

Lemma op_raises_in_flatten euclidean_mst um_loss embedding gt_seg mask alpha
    add_coordinates cs pretrain balance name w e w' :
  flatten_points embedding gt_seg mask alpha add_coordinates cs w
    = (Raise e, w') ->
  ultrametric_loss_op euclidean_mst um_loss embedding gt_seg mask alpha
    add_coordinates cs pretrain balance name w = (Raise e, w').
Proof. intros H. unfold ultrametric_loss_op. apply (bind_raise _ _ _ _ _ H). Qed.

Lemma flatten_raises_in_augment embedding gt_seg mask alpha cs w e w'
    k depth height width :
  t_shape embedding = [k; depth; height; width] ->
  augment embedding k depth height width alpha cs w = (Raise e, w') ->
  flatten_points embedding gt_seg mask alpha true cs w = (Raise e, w').
Proof.
  intros Hs H. unfold flatten_points. rewrite Hs.
  apply (bind_raise _ _ _ _ _ H).
Qed.

(** X8. The embedding must have four dimensions [(k, d, h, w)]: for any
    other rank the op raises ValueError at once, before anything is logged
    and before any node is created. *)
Theorem embedding_must_have_rank_four :
  forall euclidean_mst um_loss embedding gt_seg mask alpha add_coordinates
         coordinate_scale pretrain pretrain_balance name w,
    length (t_shape embedding) <> 4%nat ->
    ultrametric_loss_op euclidean_mst um_loss embedding gt_seg mask alpha
      add_coordinates coordinate_scale pretrain pretrain_balance name w
    = (Raise ValueError, w).
Proof.
  intros em um embedding gt_seg mask alpha ac cs pretrain balance name w Hr.
  apply op_raises_in_flatten. unfold flatten_points.
  destruct (t_shape embedding) as [| k [| d [| h [| wd [| ? ?]]]]];
    try reflexivity.
  exfalso. apply Hr. reflexivity.
Qed.

Lemma embedding_must_have_rank_four_witness :
  ultrametric_loss_op ex_euclidean_mst ex_um_loss ex_points ex_gt_seg None 1
    true (ScaleFloat 1) false false None w0
  = (Raise ValueError, w0).
Proof.
  apply (embedding_must_have_rank_four ex_euclidean_mst ex_um_loss ex_points
           ex_gt_seg None 1 true (ScaleFloat 1) false false None w0).
  discriminate.
Defined.

(** X9. The coordinates are cast to float32 before they are concatenated to
    the embedding: with [add_coordinates] an embedding of any other
    precision is rejected with TypeError, before anything is logged and
    before any node is created. *)
Theorem coordinates_need_float32_embedding :
  forall euclidean_mst um_loss embedding gt_seg mask alpha coordinate_scale
         pretrain pretrain_balance name w k depth height width s0 s1 s2 rest,
    t_shape embedding = [k; depth; height; width] ->
    t_dtype embedding <> float32 ->
    scale_tuple coordinate_scale = s0 :: s1 :: s2 :: rest ->
    s0 <> 0 -> s1 <> 0 -> s2 <> 0 ->
    ultrametric_loss_op euclidean_mst um_loss embedding gt_seg mask alpha
      true coordinate_scale pretrain pretrain_balance name w
    = (Raise TypeError, w).
Proof.
  intros em um embedding gt_seg mask alpha cs pretrain balance name w
    k depth height width s0 s1 s2 rest Hs Hd Hsc H0 H1 H2.
  apply op_raises_in_flatten.
  apply (flatten_raises_in_augment _ _ _ _ _ _ _ _ k depth height width Hs).
  unfold augment, tf_meshgrid_ij. rewrite Hsc. unfold item. cbn [nth_error].
  rewrite (bind_lift _ _ _ s0 eq_refl).
  rewrite (bind_lift _ _ _ _ (np_arange_run depth s0 H0)).
  rewrite (bind_lift _ _ _ s1 eq_refl).
  rewrite (bind_lift _ _ _ _ (np_arange_run height s1 H1)).
  rewrite (bind_lift _ _ _ s2 eq_refl).
  rewrite (bind_lift _ _ _ _ (np_arange_run width s2 H2)).
  unfold tf_concat_0. cbn [t_dtype].
  destruct (t_dtype embedding); try reflexivity.
  contradiction Hd. reflexivity.
Qed.

Lemma coordinates_need_float32_embedding_witness :
  ultrametric_loss_op ex_euclidean_mst ex_um_loss
    (astype float64 ex_embedding) ex_gt_seg None 1 true (ScaleFloat 1)
    false false None w0
  = (Raise TypeError, w0).
Proof.
  apply (coordinates_need_float32_embedding ex_euclidean_mst ex_um_loss
           (astype float64 ex_embedding) ex_gt_seg None 1 (ScaleFloat 1)
           false false None w0 1%nat 1%nat 1%nat 2%nat 1 1 1 []).
  - reflexivity.
  - discriminate.
  - reflexivity.
  - apply R1_neq_R0.
  - apply R1_neq_R0.
  - apply R1_neq_R0.
Defined.

(** X10. A coordinate scale with a zero among its first three entries makes
    the op fail in [np.arange], before anything is logged and before any
    node is created. *)
Theorem zero_coordinate_scale_fails :
  forall euclidean_mst um_loss embedding gt_seg mask alpha coordinate_scale
         pretrain pretrain_balance name w k depth height width s0 s1 s2 rest,
    t_shape embedding = [k; depth; height; width] ->
    scale_tuple coordinate_scale = s0 :: s1 :: s2 :: rest ->
    s0 = 0 \/ s1 = 0 \/ s2 = 0 ->
    exists e,
      ultrametric_loss_op euclidean_mst um_loss embedding gt_seg mask alpha
        true coordinate_scale pretrain pretrain_balance name w
      = (Raise e, w).
Proof.
  intros em um embedding gt_seg mask alpha cs pretrain balance name w
    k depth height width s0 s1 s2 rest Hs Hsc Hz.
  exists ZeroDivisionError.
  apply op_raises_in_flatten.
  apply (flatten_raises_in_augment _ _ _ _ _ _ _ _ k depth height width Hs).
  unfold augment, tf_meshgrid_ij. rewrite Hsc. unfold item. cbn [nth_error].
  unfold bind, lift, np_arange.
  destruct (Req_dec_T s0 0) as [E0 | N0]; [reflexivity |].
  destruct (Req_dec_T s1 0) as [E1 | N1]; [reflexivity |].
  destruct (Req_dec_T s2 0) as [E2 | N2]; [reflexivity |].
  exfalso. tauto.
Qed.

Lemma zero_coordinate_scale_fails_witness :
  exists e,
    ultrametric_loss_op ex_euclidean_mst ex_um_loss ex_embedding ex_gt_seg
      None 1 true (ScaleFloat 0) false false None w0
    = (Raise e, w0).
Proof.
  apply (zero_coordinate_scale_fails ex_euclidean_mst ex_um_loss ex_embedding
           ex_gt_seg None 1 (ScaleFloat 0) false false None w0
           1%nat 1%nat 1%nat 2%nat 0 0 0 []).
  - reflexivity.
  - reflexivity.
  - left. reflexivity.
Defined.

(** X11. A coordinate scale given as a tuple of fewer than three non-zero
    entries makes the op raise IndexError, before anything is logged and
    before any node is created. *)
Theorem short_coordinate_scale_raises_index_error :
  forall euclidean_mst um_loss embedding gt_seg mask alpha scale
         pretrain pretrain_balance name w k depth height width,
    t_shape embedding = [k; depth; height; width] ->
    (length scale < 3)%nat ->
    Forall (fun s => s <> 0) scale ->
    ultrametric_loss_op euclidean_mst um_loss embedding gt_seg mask alpha
      true (ScaleTuple scale) pretrain pretrain_balance name w
    = (Raise IndexError, w).
Proof.
  intros em um embedding gt_seg mask alpha scale pretrain balance name w
    k depth height width Hs Hlen Hnz.
  apply op_raises_in_flatten.
  apply (flatten_raises_in_augment _ _ _ _ _ _ _ _ k depth height width Hs).
  unfold augment, tf_meshgrid_ij, scale_tuple, item.
  destruct scale as [| s0 [| s1 [| s2 rest]]]; cbn [nth_error].
  - reflexivity.
  - inversion Hnz as [| ? ? H0 _]; subst.
    rewrite (bind_lift _ _ _ s0 eq_refl).
    rewrite (bind_lift _ _ _ _ (np_arange_run depth s0 H0)). reflexivity.
  - inversion Hnz as [| ? ? H0 Hnz']; subst.
    inversion Hnz' as [| ? ? H1 _]; subst.
    rewrite (bind_lift _ _ _ s0 eq_refl).
    rewrite (bind_lift _ _ _ _ (np_arange_run depth s0 H0)).
    rewrite (bind_lift _ _ _ s1 eq_refl).
    rewrite (bind_lift _ _ _ _ (np_arange_run height s1 H1)). reflexivity.
  - simpl in Hlen. lia.
Qed.

Lemma short_coordinate_scale_raises_index_error_witness :
  ultrametric_loss_op ex_euclidean_mst ex_um_loss ex_embedding ex_gt_seg None
    1 true (ScaleTuple [1; 1]) false false None w0
  = (Raise IndexError, w0).
Proof.
  apply (short_coordinate_scale_raises_index_error ex_euclidean_mst ex_um_loss
           ex_embedding ex_gt_seg None 1 [1; 1] false false None w0
           1%nat 1%nat 1%nat 2%nat).
  - reflexivity.
  - apply le_n.
  - repeat constructor; apply R1_neq_R0.
Defined.

(** ** Steps 1 and 2: what the points are *)

Lemma nth_row {A} (c : nat) (data : list A) (i j : nat) (d : A) :
  (j < c)%nat -> nth j (row c data i) d = nth (i * c + j) data d.
Proof.
  intros Hj. unfold row. rewrite nth_firstn.
  apply Nat.ltb_lt in Hj. rewrite Hj. apply nth_skipn.
Qed.

Lemma nth_flat_map_rows {A B} (f : A -> list B) (c : nat) (l : list A)
    (dl : A) (d : B) (i j : nat) :
  (forall x, In x l -> length (f x) = c) ->
  (i < length l)%nat -> (j < c)%nat ->
  nth (i * c + j) (flat_map f l) d = nth j (f (nth i l dl)) d.
Proof.
  intros Hlen Hi Hj.
  rewrite <- (nth_row c (flat_map f l) i j d Hj).
  rewrite (row_flat_map f c l dl i Hlen Hi). reflexivity.
Qed.

(** Row [p] of the transposed tensor collects the values of all channels at
    position [p]. *)
Lemma transposed_row (t r : ndarray) (c d h w p : nat) :
  t_shape t = [c; d; h; w] ->
  tf_transpose_1230 t = Ok r ->
  (p < d * h * w)%nat ->
  row c (t_data r) p
  = map (fun ch => nth (ch * (d * h * w) + p) (t_data t) 0) (seq 0 c).
Proof.
  intros Hs Hr Hp. unfold tf_transpose_1230 in Hr. rewrite Hs in Hr.
  inversion Hr; subst r. cbn [t_data].
  rewrite (row_flat_map _ c _ 0%nat p).
  - rewrite seq_nth by exact Hp. reflexivity.
  - intros x _. rewrite length_map, length_seq. reflexivity.
  - rewrite length_seq. exact Hp.
Qed.

(** What [flatten_points] computes without a mask. *)
Lemma flatten_points_unmasked embedding gt_seg alpha add_coordinates cs w
    points labels w1 k d h wd :
  flatten_points embedding gt_seg None alpha add_coordinates cs w
    = (Ok (points, labels), w1) ->
  t_shape embedding = [k; d; h; wd] ->
  exists e1 t w0' c,
    (if add_coordinates
     then augment embedding k d h wd alpha cs
     else ret embedding) w = (Ok e1, w0') /\
    t_shape e1 = [c; d; h; wd] /\
    c = (if add_coordinates then k + 3 else k)%nat /\
    tf_transpose_1230 e1 = Ok t /\
    points = mkTensor (t_dtype t) [(d * wd * h)%nat; c] (t_data t) /\
    labels = mkTensor (t_dtype gt_seg) [(d * wd * h)%nat] (t_data gt_seg) /\
    w1 = w0'.
Proof.
  intros H Hs. unfold flatten_points in H. rewrite Hs in H.
  apply bind_ok in H. destruct H as (e1 & w0' & He1 & H).
  assert (Hs1 : t_shape e1
                = [(if add_coordinates then k + 3 else k)%nat; d; h; wd]).
  { destruct add_coordinates.
    - apply (augment_ok _ _ _ _ _ _ _ _ _ _ He1 Hs).
    - inv_run He1. exact Hs. }
  destruct (tf_transpose_1230_ok e1 _ d h wd Hs1) as (t & Ht & _ & _ & Hlt).
  rewrite (bind_lift _ _ _ _ Ht) in H.
  apply bind_ok in H. destruct H as (e3 & w3 & He3 & H). inv_run He3.
  apply (tf_reshape_rows_ok t (d * wd * h)
           (if add_coordinates then k + 3 else k)%nat) in He3;
    [| rewrite Hlt; f_equal; lia].
  destruct He3 as [-> _].
  apply bind_ok in H. destruct H as (g & w4 & Hg & H). inv_run Hg.
  apply tf_reshape_flat_ok in Hg. destruct Hg as [-> _].
  inv_run H. inversion H; subst.
  exists e1, t, w0'. eexists. repeat split; try eassumption; reflexivity.
Qed.

(** X12. Without a mask the op hands on one point per voxel, in row-major
    order of the volume: [depth*width*height] embedding vectors of [k]
    entries, or [k + 3] with [add_coordinates], and the labels of [gt_seg]
    unchanged and in their order. *)
Theorem unmasked_flatten_shape :
  forall embedding gt_seg alpha add_coordinates coordinate_scale w points
         labels w1 k depth height width,
    flatten_points embedding gt_seg None alpha add_coordinates
      coordinate_scale w = (Ok (points, labels), w1) ->
    t_shape embedding = [k; depth; height; width] ->
    t_shape points
    = [(depth * width * height)%nat;
       (if add_coordinates then k + 3 else k)%nat] /\
    t_shape labels = [(depth * width * height)%nat] /\
    t_data labels = t_data gt_seg /\
    length (t_data gt_seg) = (depth * width * height)%nat.
Proof.
  intros embedding gt_seg alpha ac cs w points labels w1 k d h wd H Hs.
  destruct (flatten_points_ok _ _ _ _ _ _ _ _ _ _ H)
    as (n & c & _ & _ & _ & Hll & _).
  destruct (flatten_points_unmasked _ _ _ _ _ _ _ _ _ k d h wd H Hs)
    as (e1 & t & w0' & c' & _ & _ & Hc & _ & -> & -> & _).
  subst c'. cbn [t_shape t_data] in *. repeat split.
  unfold flatten_points in H. rewrite Hs in H.
  apply bind_ok in H. destruct H as (? & ? & _ & H).
  apply bind_ok in H. destruct H as (? & ? & _ & H).
  apply bind_ok in H. destruct H as (? & ? & _ & H).
  apply bind_ok in H. destruct H as (? & ? & Hg & _).
  inv_run Hg. apply tf_reshape_flat_ok in Hg. tauto.
Qed.

Lemma unmasked_flatten_shape_witness :
  t_shape ex_points = [(1 * 2 * 1)%nat; 1%nat] /\
  t_shape ex_labels = [(1 * 2 * 1)%nat] /\
  t_data ex_labels = t_data ex_gt_seg /\
  length (t_data ex_gt_seg) = (1 * 2 * 1)%nat.
Proof.
  apply (unmasked_flatten_shape ex_embedding ex_gt_seg 1 false (ScaleFloat 1)
           w0 ex_points ex_labels w0 1%nat 1%nat 1%nat 2%nat).
  - reflexivity.
  - reflexivity.
Defined.

(** X13. Without coordinates and without a mask, the embedding vector of
    the voxel at row-major position [p] collects the values of the [k]
    channels at that voxel: the transposition moves the channel axis last
    and leaves the order of the voxels unchanged. *)
Theorem point_collects_channels :
  forall embedding gt_seg alpha coordinate_scale w points labels w1
         k depth height width p,
    flatten_points embedding gt_seg None alpha false coordinate_scale w
      = (Ok (points, labels), w1) ->
    t_shape embedding = [k; depth; height; width] ->
    (p < depth * height * width)%nat ->
    point points (Z.of_nat p)
    = map (fun ch => nth (ch * (depth * height * width) + p)
                       (t_data embedding) 0)
        (seq 0 k).
Proof.
  intros embedding gt_seg alpha cs w points labels w1 k d h wd p H Hs Hp.
  destruct (flatten_points_unmasked _ _ _ _ _ _ _ _ _ k d h wd H Hs)
    as (e1 & t & w0' & c & He1 & Hs1 & Hc & Ht & -> & _ & _).
  inv_run He1.
  unfold point. cbn [t_shape t_data]. rewrite Nat2Z.id.
  eapply transposed_row; eassumption.
Qed.

Lemma point_collects_channels_witness :
  point ex_points (Z.of_nat 1)
  = map (fun ch => nth (ch * (1 * 1 * 2) + 1) (t_data ex_embedding) 0)
      (seq 0 1).
Proof.
  apply (point_collects_channels ex_embedding ex_gt_seg 1 (ScaleFloat 1) w0
           ex_points ex_labels w0 1%nat 1%nat 1%nat 2%nat 1%nat).
  - reflexivity.
  - reflexivity.
  - apply le_n.
Defined.

Lemma nth_map_seq {A} (F : nat -> A) (n i : nat) (d : A) :
  (i < n)%nat -> nth i (map F (seq 0 n)) d = F i.
Proof.
  intros Hi. rewrite (nth_indep _ d (F 0%nat))
    by (rewrite length_map, length_seq; exact Hi).
  rewrite map_nth, seq_nth by exact Hi. reflexivity.
Qed.

Lemma row_major_index_lt (a b n m : nat) :
  (a < n)%nat -> (b < m)%nat -> (a * m + b < n * m)%nat.
Proof.
  intros Ha Hb.
  assert (H : ((a + 1) * m <= n * m)%nat) by (apply Nat.mul_le_mono_r; lia).
  lia.
Qed.

(** Entry [(z, y, x)] of a grid laid out in row-major order. *)
Lemma nth_grid (g : R -> R -> R -> R) (a0 a1 a2 : list R) (z y x : nat) :
  (z < length a0)%nat -> (y < length a1)%nat -> (x < length a2)%nat ->
  nth ((z * length a1 + y) * length a2 + x)
    (flat_map (fun zv => flat_map (fun yv => map (fun xv => g zv yv xv) a2) a1)
       a0) 0
  = g (nth z a0 0) (nth y a1 0) (nth x a2 0).
Proof.
  intros Hz Hy Hx.
  replace ((z * length a1 + y) * length a2 + x)%nat
    with (z * (length a1 * length a2) + (y * length a2 + x))%nat by lia.
  rewrite (nth_flat_map_rows _ (length a1 * length a2) a0 0 0 z).
  - rewrite (nth_flat_map_rows _ (length a2) a1 0 0 y).
    + rewrite (nth_indep _ 0 (g (nth z a0 0) (nth y a1 0) 0))
        by (rewrite length_map; exact Hx).
      apply (map_nth (fun xv => g (nth z a0 0) (nth y a1 0) xv)).
    + intros v _. apply length_map.
    + exact Hy.
    + exact Hx.
  - intros v _. apply length_flat_map_rows. intros v' _. apply length_map.
  - exact Hz.
  - apply row_major_index_lt; assumption.
Qed.

Lemma length_grid (g : R -> R -> R -> R) (a0 a1 a2 : list R) :
  length (flat_map (fun zv => flat_map (fun yv => map (fun xv => g zv yv xv) a2)
                                 a1) a0)
  = (length a0 * (length a1 * length a2))%nat.
Proof.
  apply length_flat_map_rows. intros v _.
  apply length_flat_map_rows. intros v' _. apply length_map.
Qed.

(** The data of the augmented embedding: the embedding followed by the
    three coordinate grids. *)
Lemma augment_data embedding k depth height width alpha cs w e' w'
    s0 s1 s2 rest :
  augment embedding k depth height width alpha cs w = (Ok e', w') ->
  scale_tuple cs = s0 :: s1 :: s2 :: rest ->
  let a0 := map (fun i => INR i * s0) (seq 0 depth) in
  let a1 := map (fun i => INR i * s1) (seq 0 height) in
  let a2 := map (fun i => INR i * s2) (seq 0 width) in
  t_data e'
  = t_data embedding
    ++ flat_map (fun z => flat_map (fun y => map (fun x => z) a2) a1) a0
    ++ flat_map (fun z => flat_map (fun y => map (fun x => y) a2) a1) a0
    ++ flat_map (fun z => flat_map (fun y => map (fun x => x) a2) a1) a0.
Proof.
  intros H Hsc a0 a1 a2. unfold augment, tf_meshgrid_ij in H.
  rewrite Hsc in H. unfold item in H. cbn [nth_error] in H.
  rewrite (bind_lift _ _ _ s0 eq_refl) in H.
  apply bind_ok in H. destruct H as (b0 & w2 & Hb0 & H). inv_run Hb0.
  rewrite (bind_lift _ _ _ s1 eq_refl) in H.
  apply bind_ok in H. destruct H as (b1 & w3 & Hb1 & H). inv_run Hb1.
  rewrite (bind_lift _ _ _ s2 eq_refl) in H.
  apply bind_ok in H. destruct H as (b2 & w4 & Hb2 & H). inv_run Hb2.
  unfold np_arange in Hb0, Hb1, Hb2.
  destruct (Req_dec_T s0 0); [discriminate |].
  destruct (Req_dec_T s1 0); [discriminate |].
  destruct (Req_dec_T s2 0); [discriminate |].
  inversion Hb0; subst b0. inversion Hb1; subst b1. inversion Hb2; subst b2.
  apply bind_ok in H. destruct H as (e2 & w5 & He2 & H). inv_run He2.
  apply tf_concat_0_ok in He2. destruct He2 as (? & ? & ? & _ & _ & _ & ->).
  apply bind_ok in H. destruct H as (? & ? & _ & H).
  apply bind_ok in H. destruct H as (? & ? & _ & H).
  apply bind_ok in H. destruct H as (? & ? & _ & H).
  inv_run H. reflexivity.
Qed.

(** X14. With [add_coordinates] and without a mask, the embedding vector of
    the voxel [(z, y, x)], at row-major position [(z*height + y)*width + x],
    is its [k] channel values followed by its coordinates scaled per axis,
    [(z*scale[0], y*scale[1], x*scale[2])]. *)
Theorem point_carries_scaled_coordinates :
  forall embedding gt_seg alpha coordinate_scale w points labels w1
         k depth height width s0 s1 s2 rest z y x,
    flatten_points embedding gt_seg None alpha true coordinate_scale w
      = (Ok (points, labels), w1) ->
    t_shape embedding = [k; depth; height; width] ->
    length (t_data embedding) = (k * (depth * height * width))%nat ->
    scale_tuple coordinate_scale = s0 :: s1 :: s2 :: rest ->
    (z < depth)%nat -> (y < height)%nat -> (x < width)%nat ->
    point points (Z.of_nat ((z * height + y) * width + x))
    = map (fun ch => nth (ch * (depth * height * width)
                          + ((z * height + y) * width + x))
                       (t_data embedding) 0)
        (seq 0 k)
      ++ [INR z * s0; INR y * s1; INR x * s2].
Proof.
  intros embedding gt_seg alpha cs w points labels w1 k d h wd s0 s1 s2 rest
    z y x H Hs Hlen Hsc Hz Hy Hx.
  destruct (flatten_points_unmasked _ _ _ _ _ _ _ _ _ k d h wd H Hs)
    as (e1 & t & w0' & c & He1 & Hs1 & Hc & Ht & -> & _ & _).
  subst c.
  pose proof (augment_data _ _ _ _ _ _ _ _ _ _ s0 s1 s2 rest He1 Hsc) as Hd.
  cbv zeta in Hd.
  set (a0 := map (fun i => INR i * s0) (seq 0 d)) in *.
  set (a1 := map (fun i => INR i * s1) (seq 0 h)) in *.
  set (a2 := map (fun i => INR i * s2) (seq 0 wd)) in *.
  assert (L0 : length a0 = d) by (unfold a0; rewrite length_map, length_seq; reflexivity).
  assert (L1 : length a1 = h) by (unfold a1; rewrite length_map, length_seq; reflexivity).
  assert (L2 : length a2 = wd) by (unfold a2; rewrite length_map, length_seq; reflexivity).
  set (p := ((z * h + y) * wd + x)%nat).
  set (D := (d * h * wd)%nat).
  assert (Hp : (p < D)%nat).
  { unfold p, D. apply row_major_index_lt; [| exact Hx].
    apply row_major_index_lt; assumption. }
  unfold point. cbn [t_shape t_data]. rewrite Nat2Z.id.
  rewrite (transposed_row e1 t (k + 3) d h wd p Hs1 Ht Hp). fold D.
  rewrite seq_app, map_app. f_equal.
  - apply map_ext_in. intros ch Hch. apply in_seq in Hch.
    rewrite Hd. apply app_nth1. rewrite Hlen. fold D. nia.
  - cbn [seq map Nat.add]. rewrite Hd.
    set (c0 := flat_map (fun z0 => flat_map (fun _ => map (fun _ => z0) a2) a1) a0).
    set (c1 := flat_map (fun _ => flat_map (fun y0 => map (fun _ => y0) a2) a1) a0).
    set (c2 := flat_map (fun _ => flat_map (fun _ => map (fun x0 => x0) a2) a1) a0).
    assert (Lc0 : length c0 = D)
      by (unfold c0; rewrite (length_grid (fun zv _ _ => zv)), L0, L1, L2;
          unfold D; lia).
    assert (Lc1 : length c1 = D)
      by (unfold c1; rewrite (length_grid (fun _ yv _ => yv)), L0, L1, L2;
          unfold D; lia).
    assert (N0 : nth p c0 0 = INR z * s0).
    { unfold c0, p. rewrite <- L1 at 1. rewrite <- L2 at 1.
      rewrite (nth_grid (fun zv _ _ => zv)) by lia.
      unfold a0. apply (nth_map_seq (fun i => INR i * s0)). exact Hz. }
    assert (N1 : nth p c1 0 = INR y * s1).
    { unfold c1, p. rewrite <- L1 at 1. rewrite <- L2 at 1.
      rewrite (nth_grid (fun _ yv _ => yv)) by lia.
      unfold a1. apply (nth_map_seq (fun i => INR i * s1)). exact Hy. }
    assert (N2 : nth p c2 0 = INR x * s2).
    { unfold c2, p. rewrite <- L1 at 1. rewrite <- L2 at 1.
      rewrite (nth_grid (fun _ _ xv => xv)) by lia.
      unfold a2. apply (nth_map_seq (fun i => INR i * s2)). exact Hx. }
    f_equal; [| f_equal; [| f_equal]].
    + replace (k * D + p)%nat with (length (t_data embedding) + p)%nat
        by (rewrite Hlen; reflexivity).
      rewrite app_nth2_plus, app_nth1 by lia. exact N0.
    + replace (S k * D + p)%nat
        with (length (t_data embedding) + (length c0 + p))%nat
        by (rewrite Hlen, Lc0; fold D; lia).
      rewrite app_nth2_plus, app_nth2_plus, app_nth1 by lia. exact N1.
    + replace (S (S k) * D + p)%nat
        with (length (t_data embedding) + (length c0 + (length c1 + p)))%nat
        by (rewrite Hlen, Lc0, Lc1; fold D; lia).
      rewrite app_nth2_plus, app_nth2_plus, app_nth2_plus. exact N2.
Qed.

Lemma point_carries_scaled_coordinates_witness :
  exists points,
    point points (Z.of_nat ((0 * 1 + 0) * 2 + 1))
    = map (fun ch => nth (ch * (1 * 1 * 2) + ((0 * 1 + 0) * 2 + 1))
                       (t_data ex_embedding) 0)
        (seq 0 1)
      ++ [INR 0 * 1; INR 0 * 1; INR 1 * 1].
Proof.
  destruct (flatten_points_run ex_embedding ex_gt_seg 1 true 1 w0
              1%nat 1%nat 1%nat 2%nat eq_refl ltac:(discriminate) eq_refl
              (fun _ => conj eq_refl R1_neq_R0))
    as (points & labels & w1 & Hf).
  exists points.
  apply (point_carries_scaled_coordinates ex_embedding ex_gt_seg 1
           (ScaleFloat 1) w0 points labels w1 1%nat 1%nat 1%nat 2%nat
           1 1 1 [] 0%nat 0%nat 1%nat Hf).
  - reflexivity.
  - reflexivity.
  - reflexivity.
  - apply le_n.
  - apply le_n.
  - apply le_n.
Defined.

(** ** Steps 1 and 2: the warning and the mask *)

Lemma world_eta (w : world) : mkWorld (logs w ++ []) (graph w) = w.
Proof. destruct w. simpl. rewrite app_nil_r. reflexivity. Qed.

(** After step 1 nothing is logged: the world [flatten_points] ends in is
    the one [augment] leaves. *)
Lemma flatten_points_world embedding gt_seg mask alpha add_coordinates cs w
    points labels w1 k d h wd :
  flatten_points embedding gt_seg mask alpha add_coordinates cs w
    = (Ok (points, labels), w1) ->
  t_shape embedding = [k; d; h; wd] ->
  exists e1,
    (if add_coordinates
     then augment embedding k d h wd alpha cs
     else ret embedding) w = (Ok e1, w1).
Proof.
  intros H Hs. unfold flatten_points in H. rewrite Hs in H.
  apply bind_ok in H. destruct H as (e1 & w2 & He1 & H).
  exists e1.
  apply bind_ok in H. destruct H as (? & ? & H1 & H). inv_run H1.
  apply bind_ok in H. destruct H as (? & ? & H2 & H). inv_run H2.
  apply bind_ok in H. destruct H as (? & ? & H3 & H). inv_run H3.
  destruct mask as [mask |].
  - apply bind_ok in H. destruct H as (? & ? & H4 & H). inv_run H4.
    apply bind_ok in H. destruct H as (? & ? & H5 & H). inv_run H5.
    apply bind_ok in H. destruct H as (? & ? & H6 & H). inv_run H6.
    apply ret_ok in H. destruct H as [_ ->]. exact He1.
  - apply ret_ok in H. destruct H as [_ ->]. exact He1.
Qed.

Lemma Rmax_same (s : R) : Rmax s s = s.
Proof. apply Rmax_left. apply Rle_refl. Qed.

Lemma Rmin_same (s : R) : Rmin s s = s.
Proof. apply Rmin_left. apply Rle_refl. Qed.

(** X15. With a scalar coordinate scale [s], step 1 warns exactly when
    [sqrt(s^2 + k) - s < alpha], with the two bounds as arguments; nothing
    else is logged by steps 1 and 2, no node is created, and without
    [add_coordinates] the world is left as it was. *)
Theorem alpha_warning_criterion :
  forall embedding gt_seg mask alpha add_coordinates s w points labels w1
         k depth height width,
    flatten_points embedding gt_seg mask alpha add_coordinates (ScaleFloat s) w
      = (Ok (points, labels), w1) ->
    t_shape embedding = [k; depth; height; width] ->
    w1 = mkWorld
           (logs w ++
            (if add_coordinates
             then
               if Rlt_dec (sqrt (s * s + INR k) - s) alpha
               then [mkLog WARNING alpha_warning_format
                       [s; sqrt (s * s + INR k)]]
               else []
             else []))
           (graph w).
Proof.
  intros embedding gt_seg mask alpha ac s w points labels w1 k d h wd H Hs.
  destruct (flatten_points_world _ _ _ _ _ _ _ _ _ _ k d h wd H Hs)
    as (e1 & He1).
  destruct ac.
  - unfold augment, scale_tuple, item, tf_meshgrid_ij in He1.
    cbn [nth_error] in He1.
    rewrite (bind_lift _ _ _ s eq_refl) in He1.
    apply bind_ok in He1. destruct He1 as (? & ? & H1 & He1). inv_run H1.
    rewrite (bind_lift _ _ _ s eq_refl) in He1.
    apply bind_ok in He1. destruct He1 as (? & ? & H2 & He1). inv_run H2.
    rewrite (bind_lift _ _ _ s eq_refl) in He1.
    apply bind_ok in He1. destruct He1 as (? & ? & H3 & He1). inv_run H3.
    apply bind_ok in He1. destruct He1 as (? & ? & H4 & He1). inv_run H4.
    cbn [np_max np_min list_max list_min] in He1.
    rewrite !Rmax_same, !Rmin_same in He1.
    rewrite (bind_lift _ _ _ s eq_refl) in He1.
    rewrite (bind_lift _ _ _ s eq_refl) in He1.
    apply bind_ok in He1. destruct He1 as ([] & w2 & Hw & He1).
    apply ret_ok in He1. destruct He1 as [_ ->].
    destruct (Rlt_dec (sqrt (s * s + INR k) - s) alpha).
    + unfold logger_warn in Hw. inversion Hw. reflexivity.
    + apply ret_ok in Hw. destruct Hw as [_ ->]. symmetry. apply world_eta.
  - apply ret_ok in He1. destruct He1 as [_ ->]. symmetry. apply world_eta.
Qed.

Lemma alpha_warning_criterion_witness :
  exists w1,
    w1 = mkWorld
           (logs w0 ++
            (if true
             then
               if Rlt_dec (sqrt (1 * 1 + INR 1) - 1) 1
               then [mkLog WARNING alpha_warning_format
                       [1; sqrt (1 * 1 + INR 1)]]
               else []
             else []))
           (graph w0).
Proof.
  destruct (flatten_points_run ex_embedding ex_gt_seg 1 true 1 w0
              1%nat 1%nat 1%nat 2%nat eq_refl ltac:(discriminate) eq_refl
              (fun _ => conj eq_refl R1_neq_R0))
    as (points & labels & w1 & Hf).
  exists w1.
  apply (alpha_warning_criterion ex_embedding ex_gt_seg None 1 true 1 w0
           points labels w1 1%nat 1%nat 1%nat 2%nat Hf).
  reflexivity.
Defined.

Lemma select_by_mask {A} (mask : list bool) (l pre : list A) :
  length mask = length l ->
  flat_map (row 1 (pre ++ l))
    (filter (fun i => nth (i - length pre) mask false)
       (seq (length pre) (length l)))
  = map snd (filter fst (combine mask l)).
Proof.
  revert mask pre. induction l as [| x l IH]; intros mask pre Hlen.
  - destruct mask; reflexivity.
  - destruct mask as [| b mask]; [discriminate |].
    simpl in Hlen. injection Hlen as Hlen.
    assert (E : filter (fun i => nth (i - length pre) (b :: mask) false)
                  (seq (S (length pre)) (length l))
                = filter (fun i => nth (i - length (pre ++ [x])) mask false)
                    (seq (length (pre ++ [x])) (length l))).
    { rewrite length_app. simpl. rewrite Nat.add_1_r.
      apply filter_ext_in. intros i Hi. apply in_seq in Hi.
      replace (i - length pre)%nat with (S (i - S (length pre))) by lia.
      reflexivity. }
    assert (R : flat_map (row 1 (pre ++ x :: l))
                  (filter (fun i => nth (i - length (pre ++ [x])) mask false)
                     (seq (length (pre ++ [x])) (length l)))
                = map snd (filter fst (combine mask l))).
    { rewrite <- (IH mask (pre ++ [x]) Hlen).
      rewrite <- app_assoc. reflexivity. }
    assert (X : row 1 (pre ++ x :: l) (length pre) = [x]).
    { unfold row. rewrite Nat.mul_1_r.
      rewrite skipn_app, skipn_all, Nat.sub_diag. reflexivity. }
    change (seq (length pre) (length (x :: l)))
      with (length pre :: seq (S (length pre)) (length l)).
    cbn [filter]. rewrite Nat.sub_diag, E. cbn [nth combine filter fst].
    destruct b; cbn [flat_map map snd]; rewrite R; [| reflexivity].
    rewrite X. reflexivity.
Qed.

(** X16. With a mask, the labels handed on are the labels of the voxels
    where the mask holds, in their order, and the op needs a mask with one
    entry per voxel. *)
Theorem masked_labels_are_selected :
  forall embedding gt_seg mask alpha add_coordinates coordinate_scale w
         points labels w1,
    flatten_points embedding gt_seg (Some mask) alpha add_coordinates
      coordinate_scale w = (Ok (points, labels), w1) ->
    t_data labels
    = map snd (filter fst (combine (t_data mask) (t_data gt_seg))) /\
    length (t_data mask) = length (t_data gt_seg).
Proof.
  intros embedding gt_seg mask alpha ac cs w points labels w1 H.
  unfold flatten_points in H.
  destruct (t_shape embedding) as [| k [| d [| h [| wd [| ? ?]]]]];
    try discriminate H.
  apply bind_ok in H. destruct H as (? & ? & _ & H).
  apply bind_ok in H. destruct H as (? & ? & _ & H).
  apply bind_ok in H. destruct H as (? & ? & _ & H).
  apply bind_ok in H. destruct H as (g & ? & Hg & H). inv_run Hg.
  apply tf_reshape_flat_ok in Hg. destruct Hg as [-> Hgl].
  apply bind_ok in H. destruct H as (m & ? & Hm & H). inv_run Hm.
  apply tf_reshape_flat_ok in Hm. destruct Hm as [-> Hml].
  apply bind_ok in H. destruct H as (? & ? & _ & H).
  apply bind_ok in H. destruct H as (l & ? & Hl & H). inv_run Hl.
  apply ret_ok in H. destruct H as [H _]. inversion H; subst.
  unfold tf_boolean_mask in Hl. cbn [t_shape t_data t_dtype] in Hl.
  rewrite Nat.eqb_refl in Hl. inversion Hl; subst. cbn [t_data prod fold_right].
  split; [| congruence].
  rewrite <- Hgl.
  rewrite <- (select_by_mask (t_data mask) (t_data gt_seg) []) by congruence.
  cbn [length app]. f_equal. apply filter_ext. intros i.
  rewrite Nat.sub_0_r. reflexivity.
Qed.

Lemma masked_labels_are_selected_witness :
  t_data (mkTensor int64 [1%nat] [1%Z])
  = map snd (filter fst (combine (t_data ex_mask) (t_data ex_gt_seg))) /\
  length (t_data ex_mask) = length (t_data ex_gt_seg).
Proof.
  apply (masked_labels_are_selected ex_embedding ex_gt_seg ex_mask 1 false
           (ScaleFloat 1) w0 (mkTensor float32 [1; 1]%nat [0])
           (mkTensor int64 [1%nat] [1%Z]) w0).
  reflexivity.
Defined.

(** X17. A mask whose element count is not [depth * width * height] makes
    the op fail. *)
Theorem mask_size_mismatch_fails :
  forall euclidean_mst um_loss embedding gt_seg mask alpha add_coordinates
         coordinate_scale pretrain pretrain_balance name w k depth height
         width,
    t_shape embedding = [k; depth; height; width] ->
    length (t_data mask) <> (depth * width * height)%nat ->
    exists e w',
      ultrametric_loss_op euclidean_mst um_loss embedding gt_seg (Some mask)
        alpha add_coordinates coordinate_scale pretrain pretrain_balance
        name w = (Raise e, w').
Proof.
  intros em um embedding gt_seg mask alpha ac cs pretrain balance name w
    k d h wd Hs Hm.
  destruct (flatten_points embedding gt_seg (Some mask) alpha ac cs w)
    as [[[p l] | e] w'] eqn:Hrun.
  - exfalso. unfold flatten_points in Hrun. rewrite Hs in Hrun.
    apply bind_ok in Hrun. destruct Hrun as (? & ? & _ & Hrun).
    apply bind_ok in Hrun. destruct Hrun as (? & ? & _ & Hrun).
    apply bind_ok in Hrun. destruct Hrun as (? & ? & _ & Hrun).
    apply bind_ok in Hrun. destruct Hrun as (? & ? & _ & Hrun).
    apply bind_ok in Hrun. destruct Hrun as (m & ? & Hmk & _).
    inv_run Hmk. apply tf_reshape_flat_ok in Hmk. tauto.
  - exists e, w'. apply op_raises_in_flatten. exact Hrun.
Qed.

Lemma mask_size_mismatch_fails_witness :
  exists e w',
    ultrametric_loss_op ex_euclidean_mst ex_um_loss ex_embedding ex_gt_seg
      (Some (mkTensor bool_ [1%nat] [true])) 1 false (ScaleFloat 1) false
      false None w0 = (Raise e, w').
Proof.
  apply (mask_size_mismatch_fails ex_euclidean_mst ex_um_loss ex_embedding
           ex_gt_seg (mkTensor bool_ [1%nat] [true]) 1 false (ScaleFloat 1)
           false false None w0 1%nat 1%nat 1%nat 2%nat).
  - reflexivity.
  - discriminate.
Defined.

(** ** Steps 3 to 5: the outputs *)

Lemma sum_nonneg (l : list R) : Forall (fun x => 0 <= x) l -> 0 <= sum l.
Proof.
  induction 1 as [| x l Hx _ IH]; simpl; [apply Rle_refl | lra].
Qed.

Lemma sum_edges_nonneg (m : nat) (f : nat -> R) :
  (forall i, 0 <= f i) -> 0 <= sum_edges m f.
Proof.
  intros H. unfold sum_edges. apply sum_nonneg.
  apply Forall_forall. intros x Hx. apply in_map_iff in Hx.
  destruct Hx as (i & <- & _). apply H.
Qed.

Lemma sum_edges_zero (m : nat) (f : nat -> R) :
  (forall i, (i < m)%nat -> f i = 0) -> sum_edges m f = 0.
Proof.
  intros H. unfold sum_edges.
  assert (G : forall l, (forall i, In i l -> f i = 0) -> sum (map f l) = 0).
  { induction l as [| i l IH]; intros Hl; simpl; [reflexivity |].
    rewrite (Hl i) by (left; reflexivity).
    rewrite IH by (intros j Hj; apply Hl; right; exact Hj). lra. }
  apply G. intros i Hi. apply in_seq in Hi. apply H. lia.
Qed.

Lemma entry_nonneg (a : ndarray) (i : nat) :
  Forall (fun x => 0 <= x) (t_data a) -> 0 <= entry a i.
Proof.
  intros H. unfold entry.
  destruct (Nat.lt_ge_cases i (length (t_data a))) as [Hi | Hi].
  - rewrite Forall_forall in H. apply H. apply nth_In. exact Hi.
  - rewrite nth_overflow by exact Hi. apply Rle_refl.
Qed.

Section Outputs.

Variable euclidean_mst : ndarray -> result ndarray.
Variable um_loss : ndarray -> tensor Z -> ndarray -> result um_result.
Variables (embedding : ndarray) (gt_seg : tensor Z).
Variables (mask : option (tensor bool)) (alpha : R).
Variables (add_coordinates : bool) (coordinate_scale : scale_arg).
Variables (pretrain balance : bool) (name : option string) (w w1 : world).
Variables (points emst : ndarray) (labels : tensor Z).
Variables (n c k ce : nat).

Hypothesis flattened :
  flatten_points embedding gt_seg mask alpha add_coordinates coordinate_scale w
  = (Ok (points, labels), w1).
Hypothesis points_shape : t_shape points = [n; c].
Hypothesis mst_of_points : euclidean_mst (astype float64 points) = Ok emst.
Hypothesis emst_dtype : t_dtype emst = float64.
Hypothesis emst_shape : t_shape emst = [S k; ce].
Hypothesis emst_columns : (2 < ce)%nat.
Hypothesis emst_valid : valid_edges n emst.

(** A successful run, taken apart. *)
Lemma successful_run out w' :
  ultrametric_loss_op euclidean_mst um_loss embedding gt_seg mask alpha
    add_coordinates coordinate_scale pretrain balance name w = (Ok out, w') ->
  exists d_min d_max,
    out_emst out = emst /\
    out_edges_u out
    = mkTensor (t_dtype points) [S k; c]
        (flat_map (fun i => row c (t_data points) (Z.to_nat i))
           (endpoints emst 0)) /\
    out_edges_v out
    = mkTensor (t_dtype points) [S k; c]
        (flat_map (fun i => row c (t_data points) (Z.to_nat i))
           (endpoints emst 1)) /\
    out_dist out
    = mkTensor (t_dtype points) [S k]
        (map (edge_length points emst) (seq 0 (S k))) /\
    w' = mkWorld (logs w1 ++ [mkLog INFO emst_format [d_min; d_max]])
           (graph w1 ++ [emst_node None; um_loss_node name (negb pretrain)]).
Proof.
  intros H.
  pose proof (points_size embedding gt_seg mask alpha add_coordinates
                coordinate_scale w w1 points labels n c flattened
                points_shape) as Hsize.
  unfold ultrametric_loss_op in H. rewrite (bind_run _ _ _ _ _ flattened) in H.
  cbn [fst snd] in H.
  destruct (get_emst_op_run euclidean_mst points None w1 emst k ce
              mst_of_points emst_dtype emst_shape emst_columns)
    as (d_min & d_max & Hrun).
  destruct (index_column_run emst (S k) ce 0 emst_shape) as [Hiu Hlu]; [lia |].
  destruct (index_column_run emst (S k) ce 1 emst_shape) as [Hiv Hlv]; [lia |].
  destruct (edge_tensors points emst n c (S k) ce points_shape Hsize
              emst_shape emst_columns emst_valid)
    as (eu & ev & diff & Hgu & Hgv & Hsub & Hds & Hsqrt).
  pose proof emst_valid as Hv. unfold valid_edges in Hv.
  apply Forall_app in Hv. destruct Hv as [Hvu Hvv].
  rewrite (tf_gather_run points n c _ points_shape Hvu), Hlu in Hgu.
  rewrite (tf_gather_run points n c _ points_shape Hvv), Hlv in Hgv.
  inversion Hgu; subst eu. inversion Hgv; subst ev.
  unfold loss_of_points in H.
  rewrite (bind_run _ _ _ _ _ Hrun) in H.
  rewrite (bind_lift _ _ _ _ Hiu) in H.
  rewrite (tf_gather_run points n c _ points_shape Hvu), Hlu in H.
  rewrite (bind_lift _ _ _ _ eq_refl) in H.
  rewrite (bind_lift _ _ _ _ Hiv) in H.
  rewrite (tf_gather_run points n c _ points_shape Hvv), Hlv in H.
  rewrite (bind_lift _ _ _ _ eq_refl) in H.
  rewrite (bind_lift _ _ _ _ Hsub), (bind_lift _ _ _ _ Hds) in H.
  cbv zeta in H. rewrite Hsqrt in H.
  apply bind_ok in H. destruct H as (loss & w2 & Hloss & H).
  apply ret_ok in H. destruct H as [-> ->].
  exists d_min, d_max. cbn [out_emst out_edges_u out_edges_v out_dist].
  repeat split.
  destruct pretrain.
  - apply bind_ok in Hloss. destruct Hloss as (outs & w3 & Hpy & Hloss).
    unfold py_func, run_node in Hpy.
    apply bind_ok in Hpy. destruct Hpy as ([] & w4 & Hadd & Hpy).
    unfold add_node in Hadd. inversion Hadd; subst w4. clear Hadd.
    apply bind_ok in Hpy. destruct Hpy as (outs' & w5 & Hcall & Hpy).
    assert (Hw5 : w5 = mkWorld
              (logs w1 ++ [mkLog INFO emst_format [d_min; d_max]])
              ((graph w1 ++ [emst_node None]) ++ [um_loss_node name false])).
    { unfold call_get_um_loss, lift in Hcall. inversion Hcall. reflexivity. }
    assert (Hw3 : w3 = w5).
    { destruct (check_dtypes outs' _); [| discriminate Hpy].
      apply ret_ok in Hpy. tauto. }
    assert (Hw2 : w2 = w3).
    { destruct outs as [| ? [| [?|?|?] [| [?|?|?] [| [?|?|?] [| [?|?|?]
        [| ? ?]]]]]]; try discriminate Hloss;
        unfold lift in Hloss; inversion Hloss; reflexivity. }
    rewrite Hw2, Hw3, Hw5, <- app_assoc. reflexivity.
  - apply bind_ok in Hloss. destruct Hloss as (outs & w3 & Hpy & Hloss).
    unfold py_func_gradient, run_node in Hpy.
    apply bind_ok in Hpy. destruct Hpy as ([] & w4 & Hadd & Hpy).
    unfold add_node in Hadd. inversion Hadd; subst w4. clear Hadd.
    apply bind_ok in Hpy. destruct Hpy as (outs' & w5 & Hcall & Hpy).
    assert (Hw5 : w5 = mkWorld
              (logs w1 ++ [mkLog INFO emst_format [d_min; d_max]])
              ((graph w1 ++ [emst_node None]) ++ [um_loss_node name true])).
    { unfold call_get_um_loss, lift in Hcall. inversion Hcall. reflexivity. }
    assert (Hw3 : w3 = w5).
    { destruct (check_dtypes outs' _); [| discriminate Hpy].
      apply ret_ok in Hpy. tauto. }
    assert (Hw2 : w2 = w3).
    { inv_run Hloss. reflexivity. }
    rewrite Hw2, Hw3, Hw5, <- app_assoc. reflexivity.
Qed.

End Outputs.

(** Steps 1 and 2 create no node. *)
Lemma flatten_points_graph embedding gt_seg mask alpha add_coordinates cs w
    points labels w1 :
  flatten_points embedding gt_seg mask alpha add_coordinates cs w
    = (Ok (points, labels), w1) ->
  graph w1 = graph w.
Proof.
  intros H. unfold flatten_points in H.
  destruct (t_shape embedding) as [| k [| d [| h [| wd [| ? ?]]]]] eqn:Hs;
    try discriminate H.
  assert (H' : flatten_points embedding gt_seg mask alpha add_coordinates cs w
               = (Ok (points, labels), w1))
    by (unfold flatten_points; rewrite Hs; exact H).
  destruct (flatten_points_world _ _ _ _ _ _ _ _ _ _ k d h wd H' Hs)
    as (e1 & He1).
  destruct add_coordinates.
  - unfold augment, tf_meshgrid_ij in He1.
    apply bind_ok in He1. destruct He1 as (? & ? & H1 & He1). inv_run H1.
    apply bind_ok in He1. destruct He1 as (? & ? & H2 & He1). inv_run H2.
    apply bind_ok in He1. destruct He1 as (? & ? & H3 & He1). inv_run H3.
    apply bind_ok in He1. destruct He1 as (? & ? & H4 & He1). inv_run H4.
    apply bind_ok in He1. destruct He1 as (? & ? & H5 & He1). inv_run H5.
    apply bind_ok in He1. destruct He1 as (? & ? & H6 & He1). inv_run H6.
    apply bind_ok in He1. destruct He1 as (? & ? & H7 & He1). inv_run H7.
    apply bind_ok in He1. destruct He1 as (? & ? & H8 & He1). inv_run H8.
    apply bind_ok in He1. destruct He1 as (? & ? & H9 & He1). inv_run H9.
    apply bind_ok in He1. destruct He1 as ([] & w2 & Hw & He1).
    apply ret_ok in He1. destruct He1 as [_ ->].
    destruct (Rlt_dec _ _).
    + unfold logger_warn in Hw. inversion Hw. reflexivity.
    + apply ret_ok in Hw. destruct Hw as [_ ->]. reflexivity.
  - apply ret_ok in He1. destruct He1 as [_ ->]. reflexivity.
Qed.

(** X18. On success, in either mode, the op returns the MST of the core as
    it is, the embedding vectors of the two endpoints of every edge, and as
    [dist] the Euclidean length of every edge, recomputed from these
    vectors: one non-negative entry per edge, in the precision of the
    embedding. *)
Theorem successful_run_outputs :
  forall euclidean_mst um_loss embedding gt_seg mask alpha add_coordinates
         coordinate_scale pretrain pretrain_balance name w w1 points emst
         labels n c k ce out w',
    flatten_points embedding gt_seg mask alpha add_coordinates
      coordinate_scale w = (Ok (points, labels), w1) ->
    t_shape points = [n; c] ->
    euclidean_mst (astype float64 points) = Ok emst ->
    t_dtype emst = float64 ->
    t_shape emst = [S k; ce] ->
    (2 < ce)%nat ->
    valid_edges n emst ->
    ultrametric_loss_op euclidean_mst um_loss embedding gt_seg mask alpha
      add_coordinates coordinate_scale pretrain pretrain_balance name w
      = (Ok out, w') ->
    out_emst out = emst /\
    out_dist out
    = mkTensor (t_dtype embedding) [S k]
        (map (edge_length points emst) (seq 0 (S k))) /\
    Forall (fun d => 0 <= d) (t_data (out_dist out)) /\
    t_shape (out_edges_u out) = [S k; c] /\
    t_shape (out_edges_v out) = [S k; c] /\
    (forall i, (i < S k)%nat ->
        row c (t_data (out_edges_u out)) i
          = point points (nth i (endpoints emst 0) 0%Z) /\
        row c (t_data (out_edges_v out)) i
          = point points (nth i (endpoints emst 1) 0%Z)).
Proof.
  intros em um embedding gt_seg mask alpha ac cs pretrain balance name w w1
    points emst labels n c k ce out w' Hf Hsp Hm Hd Hs Hce Hv Hrun.
  destruct (successful_run em um embedding gt_seg mask alpha ac cs pretrain
              balance name w w1 points emst labels n c k ce Hf Hsp Hm Hd Hs
              Hce Hv out w' Hrun)
    as (d_min & d_max & He & Hu & Hev & Hdist & _).
  destruct (flatten_points_ok _ _ _ _ _ _ _ _ _ _ Hf)
    as (n' & c' & Hsp' & Hlp & _ & _ & Hdp & _).
  rewrite Hsp in Hsp'. injection Hsp' as <- <-.
  destruct (index_column_run emst (S k) ce 0 Hs) as [_ Hlu]; [lia |].
  destruct (index_column_run emst (S k) ce 1 Hs) as [_ Hlv]; [lia |].
  pose proof Hv as Hv'. unfold valid_edges in Hv'.
  apply Forall_app in Hv'. destruct Hv' as [Hvu Hvv].
  assert (Hrow : forall l, Forall (fun i => (0 <= i < Z.of_nat n)%Z) l ->
            forall x, In x l ->
              length (row c (t_data points) (Z.to_nat x)) = c).
  { intros l Hl x Hx. rewrite Forall_forall in Hl. specialize (Hl x Hx).
    apply (length_row _ _ _ n); [exact Hlp | lia]. }
  split; [exact He |].
  split; [rewrite Hdist, Hdp; reflexivity |].
  split.
  { rewrite Hdist. cbn [t_data]. apply Forall_forall.
    intros x Hx. apply in_map_iff in Hx. destruct Hx as (i & <- & _).
    apply edge_length_nonneg. }
  split; [rewrite Hu; reflexivity |].
  split; [rewrite Hev; reflexivity |].
  intros i Hi. rewrite Hu, Hev. cbn [t_data]. unfold point. rewrite Hsp.
  split.
  - apply (row_flat_map _ c _ 0%Z i (Hrow _ Hvu)). lia.
  - apply (row_flat_map _ c _ 0%Z i (Hrow _ Hvv)). lia.
Qed.

Lemma successful_run_outputs_witness :
  exists out w',
    ultrametric_loss_op ex_euclidean_mst ex_um_loss ex_embedding ex_gt_seg
      None 1 false (ScaleFloat 1) false false None w0 = (Ok out, w') /\
    out_emst out = ex_emst /\
    out_dist out
    = mkTensor (t_dtype ex_embedding) [1%nat]
        (map (edge_length ex_points ex_emst) (seq 0 1)) /\
    Forall (fun d => 0 <= d) (t_data (out_dist out)).
Proof.
  destruct (default_mode_run ex_euclidean_mst ex_um_loss ex_embedding
              ex_gt_seg None 1 false (ScaleFloat 1) false None w0 w0 ex_points
              ex_emst ex_labels 2 1 0 3 eq_refl eq_refl eq_refl eq_refl
              eq_refl (le_n 3) ex_valid_edges ex_um_result eq_refl)
    as (out & w' & Hrun & _).
  exists out, w'. split; [exact Hrun |].
  destruct (successful_run_outputs ex_euclidean_mst ex_um_loss ex_embedding
              ex_gt_seg None 1 false (ScaleFloat 1) false false None w0 w0
              ex_points ex_emst ex_labels 2%nat 1%nat 0%nat 3%nat out w'
              eq_refl eq_refl eq_refl eq_refl eq_refl (le_n 3) ex_valid_edges
              Hrun)
    as (H1 & H2 & H3 & _).
  split; [exact H1 |]. split; [exact H2 | exact H3].
Defined.

(** X19. A successful run creates exactly two nodes, both stateless: first
    the node of the MST, which is never named, then the node of the loss,
    which carries [name] and has a registered gradient exactly in the
    default mode; after steps 1 and 2 it logs exactly one record, the
    diagnostic of the MST. *)
Theorem successful_run_creates_two_nodes :
  forall euclidean_mst um_loss embedding gt_seg mask alpha add_coordinates
         coordinate_scale pretrain pretrain_balance name w w1 points emst
         labels n c k ce out w',
    flatten_points embedding gt_seg mask alpha add_coordinates
      coordinate_scale w = (Ok (points, labels), w1) ->
    t_shape points = [n; c] ->
    euclidean_mst (astype float64 points) = Ok emst ->
    t_dtype emst = float64 ->
    t_shape emst = [S k; ce] ->
    (2 < ce)%nat ->
    valid_edges n emst ->
    ultrametric_loss_op euclidean_mst um_loss embedding gt_seg mask alpha
      add_coordinates coordinate_scale pretrain pretrain_balance name w
      = (Ok out, w') ->
    graph w'
    = graph w
      ++ [mkNode F_get_emst [float64] None false false;
          mkNode F_get_um_loss um_Tout name false (negb pretrain)] /\
    exists d_min d_max,
      logs w' = logs w1 ++ [mkLog INFO emst_format [d_min; d_max]].
Proof.
  intros em um embedding gt_seg mask alpha ac cs pretrain balance name w w1
    points emst labels n c k ce out w' Hf Hsp Hm Hd Hs Hce Hv Hrun.
  destruct (successful_run em um embedding gt_seg mask alpha ac cs pretrain
              balance name w w1 points emst labels n c k ce Hf Hsp Hm Hd Hs
              Hce Hv out w' Hrun)
    as (d_min & d_max & _ & _ & _ & _ & ->).
  cbn [graph logs]. rewrite (flatten_points_graph _ _ _ _ _ _ _ _ _ _ Hf).
  split; [reflexivity |]. exists d_min, d_max. reflexivity.
Qed.

Lemma successful_run_creates_two_nodes_witness :
  exists out w',
    ultrametric_loss_op ex_euclidean_mst ex_um_loss ex_embedding ex_gt_seg
      None 1 false (ScaleFloat 1) false false None w0 = (Ok out, w') /\
    graph w'
    = graph w0
      ++ [mkNode F_get_emst [float64] None false false;
          mkNode F_get_um_loss um_Tout None false (negb false)].
Proof.
  destruct (default_mode_run ex_euclidean_mst ex_um_loss ex_embedding
              ex_gt_seg None 1 false (ScaleFloat 1) false None w0 w0 ex_points
              ex_emst ex_labels 2 1 0 3 eq_refl eq_refl eq_refl eq_refl
              eq_refl (le_n 3) ex_valid_edges ex_um_result eq_refl)
    as (out & w' & Hrun & _).
  exists out, w'. split; [exact Hrun |].
  apply (successful_run_creates_two_nodes ex_euclidean_mst ex_um_loss
           ex_embedding ex_gt_seg None 1 false (ScaleFloat 1) false false None
           w0 w0 ex_points ex_emst ex_labels 2%nat 1%nat 0%nat 3%nat out w'
           eq_refl eq_refl eq_refl eq_refl eq_refl (le_n 3) ex_valid_edges
           Hrun).
Defined.

(** ** The pretrain branch *)

Lemma dtype_eqb_neq a b : a <> b -> dtype_eqb a b = false.
Proof. destruct a, b; intros H; try reflexivity; congruence. Qed.

Lemma hinge_satisfied alpha d : alpha <= d -> hinge alpha d = 0.
Proof. intros H. unfold hinge. apply Rmax_left. lra. Qed.

Lemma sum_loss_pos_nonneg m d ratio_pos :
  (forall i, 0 <= ratio_pos i) -> 0 <= sum_loss_pos m d ratio_pos.
Proof.
  intros H. apply sum_edges_nonneg. intros i.
  apply Rmult_le_pos; [apply Rle_0_sqr | apply H].
Qed.

Lemma sum_loss_neg_nonneg m alpha d ratio_neg :
  (forall i, 0 <= ratio_neg i) -> 0 <= sum_loss_neg m alpha d ratio_neg.
Proof.
  intros H. apply sum_edges_nonneg. intros i.
  apply Rmult_le_pos; [apply Rle_0_sqr | apply H].
Qed.

(** X20. The pretrain branch needs a float32 embedding: the ratios come
    back from the node of the loss as float32, and their product with the
    squared edge lengths, which have the precision of the embedding, is a
    TypeError for every other precision, although the MST was built and the
    core has answered. *)
Theorem pretrain_needs_float32_embedding :
  forall euclidean_mst um_loss embedding gt_seg mask alpha add_coordinates
         coordinate_scale pretrain_balance name w w1 points emst labels
         n c k ce r,
    flatten_points embedding gt_seg mask alpha add_coordinates
      coordinate_scale w = (Ok (points, labels), w1) ->
    t_shape points = [n; c] ->
    euclidean_mst (astype float64 points) = Ok emst ->
    t_dtype emst = float64 ->
    t_shape emst = [S k; ce] ->
    (2 < ce)%nat ->
    valid_edges n emst ->
    um_loss emst labels (scalar float32 alpha) = Ok r ->
    t_dtype embedding <> float32 ->
    fst (ultrametric_loss_op euclidean_mst um_loss embedding gt_seg mask
           alpha add_coordinates coordinate_scale true pretrain_balance name
           w)
    = Raise TypeError.
Proof.
  intros em um embedding gt_seg mask alpha ac cs balance name w w1 points emst
    labels n c k ce r Hf Hsp Hm Hd Hs Hce Hv Hr Hne.
  destruct (flatten_points_ok _ _ _ _ _ _ _ _ _ _ Hf)
    as (n' & c' & Hsp' & Hlp & _ & _ & Hdp & _).
  rewrite Hsp in Hsp'. injection Hsp' as <- <-.
  unfold ultrametric_loss_op. rewrite (bind_run _ _ _ _ _ Hf).
  cbn [fst snd].
  destruct (loss_of_points_edges em um points emst labels alpha n c k ce
              Hsp Hlp Hm Hd Hs Hce Hv true balance name w1)
    as (eu & ev & d_min & d_max & ->).
  cbv zeta. cbv iota. unfold py_func. fold (um_loss_node name false).
  unfold bind at 1.
  rewrite (bind_run _ _ _ _ _
             (um_loss_node_run um emst labels alpha r Hr name false _ _)).
  cbv beta iota.
  unfold pretrain_loss, tf_multiply, tf_binop, lift, astype.
  cbn [t_dtype t_shape t_data rbind].
  rewrite Hdp, (dtype_eqb_neq _ _ Hne). reflexivity.
Qed.

Lemma pretrain_needs_float32_embedding_witness :
  fst (ultrametric_loss_op ex_euclidean_mst ex_um_loss
         (mkTensor float64 [1; 1; 1; 2]%nat [0; 1]) ex_gt_seg None 2 false
         (ScaleFloat 1) true false None w0)
  = Raise TypeError.
Proof.
  apply (pretrain_needs_float32_embedding ex_euclidean_mst ex_um_loss
           (mkTensor float64 [1; 1; 1; 2]%nat [0; 1]) ex_gt_seg None 2 false
           (ScaleFloat 1) false None w0 w0
           (mkTensor float64 [2; 1]%nat [0; 1]) ex_emst ex_labels
           2%nat 1%nat 0%nat 3%nat ex_um_result).
  - reflexivity.
  - reflexivity.
  - reflexivity.
  - reflexivity.
  - reflexivity.
  - apply le_n.
  - exact ex_valid_edges.
  - reflexivity.
  - discriminate.
Defined.

(** X21. The pair-only loss is never negative: whenever the core returns
    non-negative ratios, and, without balancing, non-negative pair counts
    that are not both zero, the loss of the pretrain branch is a
    non-negative scalar. *)
Theorem pretrain_loss_is_nonnegative :
  forall euclidean_mst um_loss embedding gt_seg mask alpha add_coordinates
         coordinate_scale pretrain_balance name w w1 points emst labels n c r,
    t_dtype embedding = float32 ->
    flatten_points embedding gt_seg mask alpha add_coordinates
      coordinate_scale w = (Ok (points, labels), w1) ->
    t_shape points = [n; c] ->
    (2 <= n)%nat ->
    euclidean_mst (astype float64 points) = Ok emst ->
    t_dtype emst = float64 ->
    t_shape emst = [(n - 1)%nat; 3%nat] ->
    valid_edges n emst ->
    um_loss emst labels (scalar float32 alpha) = Ok r ->
    t_shape (um_ratio_pos r) = [(n - 1)%nat] ->
    length (t_data (um_ratio_pos r)) = (n - 1)%nat ->
    t_shape (um_ratio_neg r) = [(n - 1)%nat] ->
    length (t_data (um_ratio_neg r)) = (n - 1)%nat ->
    Forall (fun x => 0 <= x) (t_data (um_ratio_pos r)) ->
    Forall (fun x => 0 <= x) (t_data (um_ratio_neg r)) ->
    (pretrain_balance = false ->
     0 <= um_num_pairs_pos r /\ 0 <= um_num_pairs_neg r /\
     0 < um_num_pairs_pos r + um_num_pairs_neg r) ->
    exists out w' v,
      ultrametric_loss_op euclidean_mst um_loss embedding gt_seg mask alpha
        add_coordinates coordinate_scale true pretrain_balance name w
        = (Ok out, w') /\
      out_loss out = scalar float32 v /\ 0 <= v.
Proof.
  intros em um embedding gt_seg mask alpha ac cs balance name w w1 points emst
    labels n c r H1 H2 H3 H4 H5 H6 H7 H8 H9 H10 H11 H12 H13 Hrp Hrn Hpairs.
  destruct (pretrain_run em um embedding gt_seg mask alpha ac cs name w w1
              points emst labels n c r H1 H2 H3 H4 H5 H6 H7 H8 H9 H10 H11 H12
              H13 balance)
    as (out & w' & Hrun & Hloss & _).
  exists out, w'. eexists. split; [exact Hrun |]. split; [exact Hloss |].
  pose proof (sum_loss_pos_nonneg (n - 1) (edge_length points emst)
                (entry (um_ratio_pos r))
                (fun i => entry_nonneg _ i Hrp)) as Hp.
  pose proof (sum_loss_neg_nonneg (n - 1) alpha (edge_length points emst)
                (entry (um_ratio_neg r))
                (fun i => entry_nonneg _ i Hrn)) as Hn.
  destruct balance.
  - unfold balanced_loss. lra.
  - destruct (Hpairs eq_refl) as (HP & HN & HPN).
    unfold unbalanced_loss, Rdiv. apply Rmult_le_pos.
    + apply Rplus_le_le_0_compat; apply Rmult_le_pos; assumption.
    + left. apply Rinv_0_lt_compat. exact HPN.
Qed.

Lemma pretrain_loss_is_nonnegative_witness :
  exists out w' v,
    ultrametric_loss_op ex_euclidean_mst ex_um_loss ex_embedding ex_gt_seg
      None 2 false (ScaleFloat 1) true false None w0 = (Ok out, w') /\
    out_loss out = scalar float32 v /\ 0 <= v.
Proof.
  apply (pretrain_loss_is_nonnegative ex_euclidean_mst ex_um_loss ex_embedding
           ex_gt_seg None 2 false (ScaleFloat 1) false None w0 w0 ex_points
           ex_emst ex_labels 2%nat 1%nat ex_um_result).
  - reflexivity.
  - reflexivity.
  - reflexivity.
  - apply le_n.
  - reflexivity.
  - reflexivity.
  - reflexivity.
  - exact ex_valid_edges.
  - reflexivity.
  - reflexivity.
  - reflexivity.
  - reflexivity.
  - reflexivity.
  - simpl. constructor; [lra | constructor].
  - simpl. constructor; [lra | constructor].
  - intros _. simpl. lra.
Defined.

(** X22. When no MST edge is shorter than [alpha], the margin term
    vanishes: the pair-only loss is the positive term alone, the sum of
    [d_i^2 * ratio_pos_i], weighted without balancing by the share of the
    positive pairs. *)
Theorem pretrain_loss_without_margin_violation :
  forall euclidean_mst um_loss embedding gt_seg mask alpha add_coordinates
         coordinate_scale pretrain_balance name w w1 points emst labels n c r,
    t_dtype embedding = float32 ->
    flatten_points embedding gt_seg mask alpha add_coordinates
      coordinate_scale w = (Ok (points, labels), w1) ->
    t_shape points = [n; c] ->
    (2 <= n)%nat ->
    euclidean_mst (astype float64 points) = Ok emst ->
    t_dtype emst = float64 ->
    t_shape emst = [(n - 1)%nat; 3%nat] ->
    valid_edges n emst ->
    um_loss emst labels (scalar float32 alpha) = Ok r ->
    t_shape (um_ratio_pos r) = [(n - 1)%nat] ->
    length (t_data (um_ratio_pos r)) = (n - 1)%nat ->
    t_shape (um_ratio_neg r) = [(n - 1)%nat] ->
    length (t_data (um_ratio_neg r)) = (n - 1)%nat ->
    (forall i, (i < n - 1)%nat -> alpha <= edge_length points emst i) ->
    exists out w',
      ultrametric_loss_op euclidean_mst um_loss embedding gt_seg mask alpha
        add_coordinates coordinate_scale true pretrain_balance name w
        = (Ok out, w') /\
      out_loss out
      = scalar float32
          (if pretrain_balance
           then sum_loss_pos (n - 1) (edge_length points emst)
                  (entry (um_ratio_pos r))
           else sum_loss_pos (n - 1) (edge_length points emst)
                  (entry (um_ratio_pos r))
                * um_num_pairs_pos r
                / (um_num_pairs_pos r + um_num_pairs_neg r)).
Proof.
  intros em um embedding gt_seg mask alpha ac cs balance name w w1 points emst
    labels n c r H1 H2 H3 H4 H5 H6 H7 H8 H9 H10 H11 H12 H13 Hmargin.
  destruct (pretrain_run em um embedding gt_seg mask alpha ac cs name w w1
              points emst labels n c r H1 H2 H3 H4 H5 H6 H7 H8 H9 H10 H11 H12
              H13 balance)
    as (out & w' & Hrun & Hloss & _).
  exists out, w'. split; [exact Hrun |]. rewrite Hloss.
  assert (Hneg : sum_loss_neg (n - 1) alpha (edge_length points emst)
                   (entry (um_ratio_neg r)) = 0).
  { apply sum_edges_zero. intros i Hi.
    rewrite (hinge_satisfied _ _ (Hmargin i Hi)). ring. }
  destruct balance.
  - unfold balanced_loss. rewrite Hneg, Rplus_0_r. reflexivity.
  - unfold unbalanced_loss. rewrite Hneg, Rmult_0_l, Rplus_0_r. reflexivity.
Qed.

Lemma pretrain_loss_without_margin_violation_witness :
  exists out w',
    ultrametric_loss_op ex_euclidean_mst ex_um_loss ex_embedding ex_gt_seg
      None 1 false (ScaleFloat 1) true true None w0 = (Ok out, w') /\
    out_loss out
    = scalar float32
        (sum_loss_pos 1 (edge_length ex_points ex_emst)
           (entry (um_ratio_pos ex_um_result))).
Proof.
  apply (pretrain_loss_without_margin_violation ex_euclidean_mst ex_um_loss
           ex_embedding ex_gt_seg None 1 false (ScaleFloat 1) true None w0 w0
           ex_points ex_emst ex_labels 2%nat 1%nat ex_um_result).
  - reflexivity.
  - reflexivity.
  - reflexivity.
  - apply le_n.
  - reflexivity.
  - reflexivity.
  - reflexivity.
  - exact ex_valid_edges.
  - reflexivity.
  - reflexivity.
  - reflexivity.
  - reflexivity.
  - reflexivity.
  - intros i Hi. assert (i = 0%nat) as -> by (simpl in Hi; lia).
    rewrite ex_edge_length. apply Rle_refl.
Defined.

(** X23. Reading the endpoints of the edges back from the MST is exact: the
    MST stores the indices of the points as floats, and the conversion to
    int64 of a column that holds the integers [us] gives [us] again, also
    for negative entries. *)
Theorem endpoints_recover_integer_indices :
  forall (emst : ndarray) (k ce j : nat) (us : list Z),
    t_shape emst = [k; ce] ->
    (j < ce)%nat ->
    length us = k ->
    (forall i, (i < k)%nat ->
        nth (i * ce + j) (t_data emst) 0 = IZR (nth i us 0%Z)) ->
    index_column emst j = Ok us.
Proof.
  intros emst k ce j us Hs Hj Hl Hcol.
  unfold index_column, column. rewrite Hs.
  apply Nat.ltb_lt in Hj. rewrite Hj. cbn [rbind]. f_equal.
  rewrite map_map.
  apply (nth_ext _ _ 0%Z 0%Z).
  - rewrite length_map, length_seq. symmetry. exact Hl.
  - intros i Hi. rewrite length_map, length_seq in Hi.
    rewrite (nth_map_seq (fun i => trunc (nth (i * ce + j) (t_data emst) 0)))
      by exact Hi.
    rewrite (Hcol i Hi). apply trunc_IZR.
Qed.

Lemma endpoints_recover_integer_indices_witness :
  index_column (mkTensor float64 [2; 3]%nat [0; 1; 1; -1; 2; 5]) 1
  = Ok [1%Z; 2%Z].
Proof.
  apply (endpoints_recover_integer_indices
           (mkTensor float64 [2; 3]%nat [0; 1; 1; -1; 2; 5]) 2 3 1
           [1%Z; 2%Z]).
  - reflexivity.
  - lia.
  - reflexivity.
  - intros i Hi.
    destruct i as [| [| i]]; [reflexivity | reflexivity | lia].
Defined.

(** * Validation *)

(** ** Steps 1 and 2 do not decide on [alpha] *)





(** ** [alpha] reaches the core as it is *)





